(** * The JOS kernel monitor ([kern/monitor.c]): a shallow embedding

    The monitor is the interactive shell of the teaching kernel.  This
    development embeds its command interpreter ([runcmd], [monitor]) and its
    stack backtrace ([mon_backtrace] and the three printing helpers) as Rocq
    functions and proves what the specification says about them.

    Conventions.
    - A 32-bit machine word or pointer is a [Z]; wrap-around is written out
      ([wrap32], [to_int], [ptr_add]).
    - A C string is modelled by its contents, a [string] without the
      terminating NUL.  The command buffer, which [runcmd] overwrites in
      place, is an explicit array of characters ([list ascii]) indexed by
      [nat] offsets.
    - The console is the [string] of all characters written so far; every
      printing function takes the console and returns the extended one.
    - A loop that need not terminate takes a [fuel] argument and returns
      [None] when the fuel runs out. *)

From Stdlib Require Import ZArith List String Ascii Bool Arith Lia.
Import ListNotations.

Open Scope string_scope.
Open Scope Z_scope.

(** ** Machine words *)

Module Word.

(** A value stored in a [uint32_t]. *)
Definition wrap32 (z : Z) : Z := z mod 2 ^ 32.

(** The cast [(int) z] of a 32-bit value: two's complement. *)
Definition to_int (z : Z) : Z :=
  let u := wrap32 z in if u <? 2 ^ 31 then u else u - 2 ^ 32.

(** [p + n] for [uint32_t *p]: the address moves by [n] words of 4 bytes. *)
Definition ptr_add (p n : Z) : Z := wrap32 (p + 4 * n).

(** Physical memory as seen through [uint32_t *] reads.  No address is
    checked: every read yields some word. *)
Definition memory := Z -> Z.

(** [*p] for [uint32_t *p]. *)
Definition load32 (m : memory) (p : Z) : Z := wrap32 (m (wrap32 p)).

End Word.

(** ** C string literals *)

Module CStr.

Definition NUL : ascii := "000"%char.
Definition LF : ascii := "010"%char.
Definition TAB : ascii := "009"%char.
Definition CR : ascii := "013"%char.

(** [lit s] reads [s] the way a C compiler reads the literal: the escapes
    [\n], [\t] and [\r] stand for one character each. *)
Fixpoint lit (s : string) : string :=
  match s with
  | EmptyString => EmptyString
  | String c r =>
      if Ascii.eqb c "\"%char then
        match r with
        | String "n"%char r' => String LF (lit r')
        | String "t"%char r' => String TAB (lit r')
        | String "r"%char r' => String CR (lit r')
        | _ => String c (lit r)
        end
      else String c (lit r)
  end.

(** [strchr s c] as a truth value: a non-null result means [c] occurs in
    [s]. *)
Fixpoint strchr (s : string) (c : ascii) : bool :=
  match s with
  | EmptyString => false
  | String d r => if Ascii.eqb d c then true else strchr r c
  end.

(** [strcmp p q]: zero exactly when the two strings are equal, otherwise
    the difference of the first two characters that differ. *)
Fixpoint strcmp (p q : string) : Z :=
  match p, q with
  | EmptyString, EmptyString => 0
  | EmptyString, String d _ => 0 - Z.of_nat (nat_of_ascii d)
  | String c _, EmptyString => Z.of_nat (nat_of_ascii c) - 0
  | String c p', String d q' =>
      if Ascii.eqb c d then strcmp p' q'
      else Z.of_nat (nat_of_ascii c) - Z.of_nat (nat_of_ascii d)
  end.

(** Number of newline characters of a text: the number of lines it
    completes. *)
Fixpoint count_lines (s : string) : nat :=
  match s with
  | EmptyString => O
  | String c r => if Ascii.eqb c LF then S (count_lines r) else count_lines r
  end.

End CStr.

(** ** Formatted console output *)

Module Printfmt.
Import Word CStr.

(** A variadic argument of [cprintf]. *)
Inductive vararg : Type :=
| VInt (z : Z)
| VStr (s : string).

Definition digit (d : Z) : ascii :=
  nth (Z.to_nat d) (list_ascii_of_string "0123456789abcdef") "0"%char.

Fixpoint padding (padc : ascii) (n : nat) : string :=
  match n with
  | O => EmptyString
  | S n' => String padc (padding padc n')
  end.

(** Modelled from the spec: [printnum] of the console's printf-style
    formatted output (section 6; [lib/printfmt.c] is not among the
    sources).  The more significant digits are printed first, by
    recursion on [num / base]; the most significant digit is preceded by
    [width - 1] pad characters, where [width] has lost one for each
    further digit.  [fuel] bounds the number of digits. *)
Fixpoint printnum_fuel (fuel : nat) (num base width : Z) (padc : ascii) : string :=
  match fuel with
  | O => EmptyString
  | S fuel' =>
      (if base <=? num
       then printnum_fuel fuel' (num / base) base (width - 1) padc
       else padding padc (Z.to_nat (width - 1)))
      ++ String (digit (num mod base)) EmptyString
  end.

(** A number below [2 ^ (1 + log2 num)] has at most [1 + log2 num] digits
    in any base from 2 on. *)
Definition printnum (num base width : Z) (padc : ascii) : string :=
  printnum_fuel (S (Z.to_nat (Z.log2 num))) num base width padc.

(** [%d]: an [int], with a minus sign in front of a negative one. *)
Definition print_signed (z width : Z) (padc : ascii) : string :=
  let num := to_int z in
  if num <? 0 then String "-"%char (printnum (- num) 10 width padc)
  else printnum num 10 width padc.

(** [%u], [%x]: an [unsigned int] in the given base. *)
Definition print_unsigned (z base width : Z) (padc : ascii) : string :=
  printnum (wrap32 z) base width padc.

(** The first [n] characters of [s]; all of [s] when [n] is negative. *)
Fixpoint take_chars (n : nat) (s : string) : string :=
  match n, s with
  | S n', String c r => String c (take_chars n' r)
  | _, _ => EmptyString
  end.

Definition bounded (precision : Z) (s : string) : string :=
  if precision <? 0 then s else take_chars (Z.to_nat precision) s.

(** [%s] with an optional precision and width. *)
Definition print_string (s : string) (width precision : Z) (padc : ascii) : string :=
  let body := bounded precision s in
  let fill := Z.to_nat (width - Z.of_nat (String.length body)) in
  if (0 <? width) && negb (Ascii.eqb padc "-"%char)
  then padding padc fill ++ body
  else body ++ padding " "%char fill.

(** The state of one [%] escape while its flags are read. *)
Record escape : Type := {
  padc : ascii;
  width : Z;
  precision : Z;
  number : option Z   (* a decimal width or precision being read *)
}.

Definition escape_init : escape :=
  {| padc := " "%char; width := -1; precision := -1; number := None |}.

(** [process_precision]: a number read before any width is the width. *)
Definition process_precision (e : escape) (n : Z) : escape :=
  if width e <? 0
  then {| padc := padc e; width := n; precision := -1; number := None |}
  else {| padc := padc e; width := width e; precision := n; number := None |}.

Definition close_number (e : escape) : escape :=
  match number e with
  | Some n => process_precision e n
  | None => e
  end.

Definition is_digit (c : ascii) : bool :=
  let n := nat_of_ascii c in (48 <=? n)%nat && (n <=? 57)%nat.

Definition digit_value (c : ascii) : Z := Z.of_nat (nat_of_ascii c) - 48.

Definition next_int (ap : list vararg) : Z :=
  match ap with
  | VInt z :: _ => z
  | _ => 0
  end.

Definition next_str (ap : list vararg) : string :=
  match ap with
  | VStr s :: _ => s
  | _ => "(null)"
  end.

(** Modelled from the spec: [vprintfmt] of the console's printf-style
    formatted output (section 6; [lib/printfmt.c] is not among the
    sources).  Outside an escape ([esc = None]) characters are copied; a
    [%] opens an escape, whose flags ([0], [-]), width, [.], [*] and
    conversion ([d], [u], [x], [s], [c], [%]) are read one character at a
    time.  Conversions the monitor never uses end the output. *)
Fixpoint vprintfmt (fmt : string) (esc : option escape) (ap : list vararg) : string :=
  match fmt with
  | EmptyString => EmptyString
  | String ch fmt' =>
      match esc with
      | None =>
          if Ascii.eqb ch "%"%char then vprintfmt fmt' (Some escape_init) ap
          else String ch (vprintfmt fmt' None ap)
      | Some e =>
          if is_digit ch && (match number e with Some _ => true | None => negb (Ascii.eqb ch "0"%char) end)
          then
            let n := match number e with Some n => n | None => 0 end in
            vprintfmt fmt'
              (Some {| padc := padc e; width := width e; precision := precision e;
                       number := Some (n * 10 + digit_value ch) |}) ap
          else
            let e := close_number e in
            if Ascii.eqb ch "0"%char then
              vprintfmt fmt'
                (Some {| padc := "0"%char; width := width e; precision := precision e;
                         number := None |}) ap
            else if Ascii.eqb ch "-"%char then
              vprintfmt fmt'
                (Some {| padc := "-"%char; width := width e; precision := precision e;
                         number := None |}) ap
            else if Ascii.eqb ch "."%char then
              vprintfmt fmt'
                (Some {| padc := padc e; width := Z.max 0 (width e);
                         precision := precision e; number := None |}) ap
            else if Ascii.eqb ch "*"%char then
              vprintfmt fmt' (Some (process_precision e (to_int (next_int ap)))) (tl ap)
            else if Ascii.eqb ch "d"%char then
              print_signed (next_int ap) (width e) (padc e) ++ vprintfmt fmt' None (tl ap)
            else if Ascii.eqb ch "u"%char then
              print_unsigned (next_int ap) 10 (width e) (padc e) ++ vprintfmt fmt' None (tl ap)
            else if Ascii.eqb ch "x"%char then
              print_unsigned (next_int ap) 16 (width e) (padc e) ++ vprintfmt fmt' None (tl ap)
            else if Ascii.eqb ch "s"%char then
              print_string (next_str ap) (width e) (precision e) (padc e)
              ++ vprintfmt fmt' None (tl ap)
            else if Ascii.eqb ch "c"%char then
              String (ascii_of_nat (Z.to_nat (wrap32 (next_int ap) mod 256)))
                     (vprintfmt fmt' None (tl ap))
            else if Ascii.eqb ch "%"%char then
              String ch (vprintfmt fmt' None ap)
            else EmptyString
      end
  end.

(** The console: everything printed so far. *)
Definition console := string.

(** [cprintf(fmt, ap...)] appends the formatted text to the console. *)
Definition cprintf (fmt : string) (ap : list vararg) (out : console) : console :=
  out ++ vprintfmt fmt None ap.

End Printfmt.

(** ** The monitor *)

Module Monitor.
Import Word CStr Printfmt.

(** [struct Eipdebuginfo] of [kern/kdebug.h]: what the symbol resolver
    fills in for an instruction address.  [eip_fn_name] is not
    NUL-terminated at the end of the name; [eip_fn_namelen] bounds it. *)
Record Eipdebuginfo : Type := {
  eip_file : string;
  eip_line : Z;
  eip_fn_name : string;
  eip_fn_namelen : Z;
  eip_fn_addr : Z;
  eip_fn_narg : Z
}.

(** What the monitor takes from the rest of the kernel: the memory it
    reads, the frame pointer [read_ebp()] returns inside [mon_backtrace],
    the symbol resolver [debuginfo_eip] (its [int] status and the record
    it fills), the linker symbols [mon_kerninfo] prints and the macros
    [KERNBASE] and [ROUNDUP] of the headers. *)
Record Kernel : Type := {
  mem : memory;
  read_ebp : Z;
  debuginfo_eip : Z -> Z * Eipdebuginfo;
  sym_start : Z;
  sym_entry : Z;
  sym_etext : Z;
  sym_edata : Z;
  sym_end : Z;
  KERNBASE : Z;
  ROUNDUP : Z -> Z -> Z
}.

(** [struct Trapframe *]: an address the monitor only passes on. *)
Definition Trapframe : Type := Z.

(** [struct Command], over the type [Func] of the handlers' code
    pointers. *)
Record Command (Func : Type) : Type := {
  name : string;
  desc : string;
  func : Func
}.
Arguments name {Func} _.
Arguments desc {Func} _.
Arguments func {Func} _.

(** The three functions the built-in table points to. *)
Inductive builtin : Type := Mon_help | Mon_kerninfo | Mon_backtrace.

Definition commands : list (Command builtin) :=
  [ {| name := "help"; desc := "Display this list of commands"; func := Mon_help |};
    {| name := "kerninfo"; desc := "Display information about the kernel";
       func := Mon_kerninfo |};
    {| name := "backtrace"; desc := "Display stack backtrace"; func := Mon_backtrace |} ].

Definition NCOMMANDS : nat := List.length commands.

(** *** Basic commands *)

(** The loop of [mon_help] over [commands[i]], [i < NCOMMANDS]. *)
Fixpoint mon_help_loop (cmds : list (Command builtin)) (out : console) : console :=
  match cmds with
  | [] => out
  | c :: rest =>
      mon_help_loop rest (cprintf (lit "%s - %s\n") [VStr (name c); VStr (desc c)] out)
  end.

Definition mon_help (argc : Z) (argv : list string) (tf : Trapframe) (out : console)
  : Z * console :=
  (0, mon_help_loop commands out).

Definition mon_kerninfo (K : Kernel) (argc : Z) (argv : list string) (tf : Trapframe)
           (out : console) : Z * console :=
  let out := cprintf (lit "Special kernel symbols:\n") [] out in
  let out := cprintf (lit "  _start                  %08x (phys)\n")
               [VInt (sym_start K)] out in
  let out := cprintf (lit "  entry  %08x (virt)  %08x (phys)\n")
               [VInt (sym_entry K); VInt (sym_entry K - KERNBASE K)] out in
  let out := cprintf (lit "  etext  %08x (virt)  %08x (phys)\n")
               [VInt (sym_etext K); VInt (sym_etext K - KERNBASE K)] out in
  let out := cprintf (lit "  edata  %08x (virt)  %08x (phys)\n")
               [VInt (sym_edata K); VInt (sym_edata K - KERNBASE K)] out in
  let out := cprintf (lit "  end    %08x (virt)  %08x (phys)\n")
               [VInt (sym_end K); VInt (sym_end K - KERNBASE K)] out in
  let out := cprintf (lit "Kernel executable memory footprint: %dKB\n")
               [VInt (Z.quot (ROUNDUP K (to_int (sym_end K - sym_entry K)) 1024) 1024)]
               out in
  (0, out).

(** *** Backtrace *)

(** The loop of [mon_print_frame]: [n] is the number of iterations left,
    [5 - i]. *)
Fixpoint mon_print_frame_args (K : Kernel) (n : nat) (arg_list : Z) (out : console)
  : console :=
  match n with
  | O => out
  | S n' =>
      mon_print_frame_args K n' (ptr_add arg_list 1)
        (cprintf "%08x " [VInt (load32 (mem K) arg_list)] out)
  end.

Definition mon_print_frame (K : Kernel) (base_ptr ret_ptr : Z) (out : console)
  : console :=
  let arg_list := ptr_add base_ptr 2 in
  let out := cprintf "ebp %08x eip %08x args " [VInt base_ptr; VInt ret_ptr] out in
  let out := mon_print_frame_args K 5 arg_list out in
  cprintf (lit "\n") [] out.

Definition mon_print_symbols (K : Kernel) (ret_ptr : Z) (out : console) : console :=
  let info := snd (debuginfo_eip K ret_ptr) in
  let format_str := lit "%s:%d: %.*s+%d\n" in
  let filename := eip_file info in
  let line_num := eip_line info in
  let name_length := eip_fn_namelen info in
  let func_name := eip_fn_name info in
  let offset := to_int (to_int ret_ptr - eip_fn_addr info) in
  cprintf format_str
    [VStr filename; VInt line_num; VInt name_length; VStr func_name; VInt offset] out.

Definition mon_print_frame_descr (K : Kernel) (base_ptr : Z) (out : console) : console :=
  let ret_ptr := load32 (mem K) (ptr_add base_ptr 1) in
  let out := mon_print_frame K base_ptr ret_ptr out in
  mon_print_symbols K ret_ptr out.

(** The [while] loop of [mon_backtrace].  Nothing bounds it in the
    source; [None] is the run that has not ended within [fuel] tests of
    the loop condition. *)
Fixpoint mon_backtrace_loop (K : Kernel) (fuel : nat) (base_ptr : Z) (out : console)
  : option console :=
  match fuel with
  | O => None
  | S fuel' =>
      if negb (to_int base_ptr =? 0) then
        let prev_base := load32 (mem K) base_ptr in
        let out := mon_print_frame_descr K base_ptr out in
        mon_backtrace_loop K fuel' prev_base out
      else Some out
  end.

Definition mon_backtrace (K : Kernel) (fuel : nat) (argc : Z) (argv : list string)
           (tf : Trapframe) (out : console) : option (Z * console) :=
  let base_ptr := wrap32 (read_ebp K) in
  match mon_backtrace_loop K fuel base_ptr out with
  | Some out => Some (0, out)
  | None => None
  end.

(** A call through a code pointer of the built-in table. *)
Definition call_builtin (K : Kernel) (fuel : nat) (f : builtin) (argc : Z)
           (argv : list string) (tf : Trapframe) (out : console) : option (Z * console) :=
  match f with
  | Mon_help => Some (mon_help argc argv tf out)
  | Mon_kerninfo => Some (mon_kerninfo K argc argv tf out)
  | Mon_backtrace => mon_backtrace K fuel argc argv tf out
  end.

(** *** Command interpreter *)

Definition WHITESPACE : string := lit "\t\r\n ".
Definition MAXARGS : nat := 16.

(** The command buffer [readline] hands to [runcmd]: the characters of
    the array, in order.  Past its end lies the terminating NUL. *)
Definition buffer : Type := list ascii.

(** [*buf] at offset [p]. *)
Definition peek (b : buffer) (p : nat) : ascii := nth p b NUL.

(** [*buf = c] at offset [p]. *)
Fixpoint poke (b : buffer) (p : nat) (c : ascii) : buffer :=
  match b, p with
  | [], _ => []
  | _ :: r, O => c :: r
  | d :: r, S p' => d :: poke r p' c
  end.

Definition nonzero (c : ascii) : bool := negb (Ascii.eqb c NUL).

(** The C string that starts a list of characters: all before the first
    NUL. *)
Fixpoint cstring (l : list ascii) : string :=
  match l with
  | [] => EmptyString
  | c :: r => if nonzero c then String c (cstring r) else EmptyString
  end.

(** The C string a [char *] into the buffer points to. *)
Definition str_at (b : buffer) (p : nat) : string := cstring (skipn p b).

(** The first inner loop: while [*buf] is a nonzero character of
    [WHITESPACE], overwrite it with NUL and step to the next. *)
Fixpoint gobble (fuel : nat) (b : buffer) (p : nat) : option (buffer * nat) :=
  match fuel with
  | O => None
  | S fuel' =>
      if nonzero (peek b p) && strchr WHITESPACE (peek b p)
      then gobble fuel' (poke b p NUL) (S p)
      else Some (b, p)
  end.

(** The second inner loop: while [*buf] is nonzero and not in
    [WHITESPACE], step to the next character. *)
Fixpoint scan (fuel : nat) (b : buffer) (p : nat) : option nat :=
  match fuel with
  | O => None
  | S fuel' =>
      if nonzero (peek b p) && negb (strchr WHITESPACE (peek b p))
      then scan fuel' b (S p)
      else Some p
  end.

(** How the parsing loop of [runcmd] ends: at the [return 0] after
    "Too many arguments", or at the [break], with [argv[0..argc-1]]
    pointing into the buffer. *)
Inductive parsed : Type :=
| TooMany (b : buffer)
| Args (b : buffer) (argv : list nat).

(** The [while (1)] loop of [runcmd].  [argv] holds the [argc] pointers
    saved so far.  Each of the three loops advances [buf] towards the
    terminating NUL, so [S (length b)] steps are enough for each. *)
Fixpoint parse_loop (fuel : nat) (b : buffer) (p : nat) (argv : list nat)
  : option parsed :=
  match fuel with
  | O => None
  | S fuel' =>
      match gobble (S (List.length b)) b p with
      | None => None
      | Some (b, p) =>
          if Ascii.eqb (peek b p) NUL then Some (Args b argv)
          else if (List.length argv =? MAXARGS - 1)%nat then Some (TooMany b)
          else
            let argv := (argv ++ [p])%list in
            match scan (S (List.length b)) b p with
            | None => None
            | Some p => parse_loop fuel' b p argv
            end
      end
  end.

Definition parse (buf : buffer) : option parsed :=
  parse_loop (S (List.length buf)) buf O [].

(** What a call of [runcmd] leaves behind: its return value, the console
    and the command buffer it has overwritten. *)
Record outcome : Type := {
  retval : Z;
  cons : console;
  cmdbuf : buffer
}.

(** The state of the read-eval loop of [monitor]. *)
Inductive repl : Type :=
| Reading (out : console)
| Terminal (out : console).

Section Interpreter.

(** A table of commands and the meaning of a call through a code
    pointer of the table: given [argc], [argv], [tf] and the console,
    the handler returns an [int] and the new console, or does not
    return. *)
Variable Func : Type.
Variable call : Func -> Z -> list string -> Trapframe -> console -> option (Z * console).
Variable cmds : list (Command Func).

(** The [for] loop of [runcmd]: the first command whose name compares
    equal to [argv[0]]. *)
Fixpoint find_command (argv0 : string) (l : list (Command Func))
  : option (Command Func) :=
  match l with
  | [] => None
  | c :: rest => if strcmp argv0 (name c) =? 0 then Some c else find_command argv0 rest
  end.

Definition runcmd (buf : buffer) (tf : Trapframe) (out : console) : option outcome :=
  match parse buf with
  | None => None
  | Some (TooMany b) =>
      Some {| retval := 0;
              cons := cprintf (lit "Too many arguments (max %d)\n")
                        [VInt (Z.of_nat MAXARGS)] out;
              cmdbuf := b |}
  | Some (Args b argv) =>
      let argc := Z.of_nat (List.length argv) in
      let args := map (str_at b) argv in
      if argc =? 0 then Some {| retval := 0; cons := out; cmdbuf := b |}
      else
        match find_command (nth 0 args EmptyString) cmds with
        | Some c =>
            match call (func c) argc args tf out with
            | Some (r, out) => Some {| retval := r; cons := out; cmdbuf := b |}
            | None => None
            end
        | None =>
            Some {| retval := 0;
                    cons := cprintf (lit "Unknown command '%s'\n")
                              [VStr (nth 0 args EmptyString)] out;
                    cmdbuf := b |}
        end
  end.

(** One turn of the [while (1)] loop of [monitor], given what
    [readline] returned: [None] is its [NULL]. *)
Definition monitor_turn (line : option buffer) (tf : Trapframe) (out : console)
  : option repl :=
  match line with
  | None => Some (Reading out)
  | Some buf =>
      match runcmd buf tf out with
      | None => None
      | Some o => if retval o <? 0 then Some (Terminal (cons o))
                  else Some (Reading (cons o))
      end
  end.

(** The loop of [monitor] over the successive results of [readline]:
    [Terminal] after the [break], [Reading] when the loop waits for a
    line beyond the given ones. *)
Fixpoint monitor_loop (lines : list (option buffer)) (tf : Trapframe) (out : console)
  : option repl :=
  match lines with
  | [] => Some (Reading out)
  | line :: rest =>
      match monitor_turn line tf out with
      | Some (Reading out) => monitor_loop rest tf out
      | r => r
      end
  end.

Definition monitor (lines : list (option buffer)) (tf : Trapframe) (out : console)
  : option repl :=
  let out := cprintf (lit "Welcome to the JOS kernel monitor!\n") [] out in
  let out := cprintf (lit "Type 'help' for a list of commands.\n") [] out in
  monitor_loop lines tf out.

End Interpreter.

Arguments find_command {Func} _ _.
Arguments runcmd {Func} _ _ _ _ _.
Arguments monitor_turn {Func} _ _ _ _ _.
Arguments monitor_loop {Func} _ _ _ _ _.
Arguments monitor {Func} _ _ _ _ _.

(** The monitor of the kernel: the built-in table and its handlers. *)
Definition kernel_runcmd (K : Kernel) (fuel : nat) :=
  runcmd (call_builtin K fuel) commands.

Definition kernel_monitor (K : Kernel) (fuel : nat) :=
  monitor (call_builtin K fuel) commands.

(** *** The specification's words *)

Definition is_whitespace (c : ascii) : bool :=
  Ascii.eqb c TAB || Ascii.eqb c CR || Ascii.eqb c LF || Ascii.eqb c " "%char.

Definition push_token (w : string) (ws : list string) : list string :=
  match w with
  | EmptyString => ws
  | _ => w :: ws
  end.

(** The token that starts at the head of the line (empty when the line
    starts with whitespace), and the tokens after it. *)
Fixpoint fields (s : string) : string * list string :=
  match s with
  | EmptyString => (EmptyString, [])
  | String c r =>
      let (w, ws) := fields r in
      if is_whitespace c then (EmptyString, push_token w ws) else (String c w, ws)
  end.

(** The tokens of a line: its maximal runs of characters that are not
    whitespace (tab, carriage return, newline, space), in order. *)
Definition tokens (s : string) : list string :=
  let (w, ws) := fields s in push_token w ws.

(** The line a buffer holds. *)
Definition line_of (buf : buffer) : string := cstring buf.

(** A line of whitespace only; the empty line is one. *)
Fixpoint all_whitespace (s : string) : bool :=
  match s with
  | EmptyString => true
  | String c r => is_whitespace c && all_whitespace r
  end.

(** The buffer with every character of its line overwritten by NUL. *)
Definition blank_line (buf : buffer) : buffer :=
  (repeat NUL (String.length (line_of buf))
   ++ skipn (String.length (line_of buf)) buf)%list.

(** A string that is the contents of a C string holds no NUL. *)
Fixpoint nul_free (s : string) : bool :=
  match s with
  | EmptyString => true
  | String c r => nonzero c && nul_free r
  end.

(** The length of the run of nonzero whitespace that starts [l], and of
    the run of nonzero characters other than whitespace: how far the two
    inner loops of [runcmd] move over [l]. *)
Fixpoint ws_run (l : list ascii) : nat :=
  match l with
  | [] => O
  | c :: r => if nonzero c && is_whitespace c then S (ws_run r) else O
  end.

Fixpoint tok_run (l : list ascii) : nat :=
  match l with
  | [] => O
  | c :: r => if nonzero c && negb (is_whitespace c) then S (tok_run r) else O
  end.

(** Fixed-width hexadecimal: the [n] least significant hex digits of
    [v], most significant first. *)
Fixpoint hex_fixed (n : nat) (v : Z) : string :=
  match n with
  | O => EmptyString
  | S n' => hex_fixed n' (v / 16) ++ String (digit (v mod 16)) EmptyString
  end.

Definition hex8 (v : Z) : string := hex_fixed 8 (wrap32 v).

(** An [int] in decimal, as [%d] prints it. *)
Definition decimal (z : Z) : string := print_signed z (-1) " "%char.

(** A frame: a read-only view of the stack at a frame pointer. *)
Record Frame : Type := {
  frame_pointer : Z;
  return_address : Z;
  argument_window : list Z
}.

(** The frame at [fp]: the return address one word past [fp], five
    argument words from two words past [fp]. *)
Definition frame_at (m : memory) (fp : Z) : Frame :=
  {| frame_pointer := fp;
     return_address := load32 m (fp + 4);
     argument_window := map (fun i => load32 m (fp + 8 + 4 * i)) [0; 1; 2; 3; 4] |}.

(** The raw frame line. *)
Definition raw_line (f : Frame) : string :=
  "ebp " ++ hex8 (frame_pointer f) ++ " eip " ++ hex8 (return_address f) ++ " args "
  ++ fold_right (fun w rest => hex8 w ++ " " ++ rest) (String LF EmptyString)
       (argument_window f).

(** The symbol line [<file>:<line>: <function_name>+<byte_offset>]. *)
Definition symbol_line (file : string) (line : Z) (fn : string) (offset : Z) : string :=
  file ++ ":" ++ decimal line ++ ": " ++ fn ++ "+" ++ decimal offset
  ++ String LF EmptyString.

(** The function name of a record: the first [eip_fn_namelen] characters
    of [eip_fn_name]. *)
Definition function_name (info : Eipdebuginfo) : string :=
  bounded (to_int (eip_fn_namelen info)) (eip_fn_name info).

(** The byte offset of a return address in its function, in the [int]
    the monitor computes it in. *)
Definition byte_offset (ret start : Z) : Z := to_int (ret - start).

(** Both lines of a frame. *)
Definition frame_text (K : Kernel) (fp : Z) : string :=
  let f := frame_at (mem K) fp in
  let info := snd (debuginfo_eip K (return_address f)) in
  raw_line f
  ++ symbol_line (eip_file info) (eip_line info) (function_name info)
       (byte_offset (return_address f) (eip_fn_addr info)).

(** The text of a sequence of frames, in order. *)
Fixpoint frames_text (K : Kernel) (fps : list Z) : string :=
  match fps with
  | [] => EmptyString
  | fp :: rest => frame_text K fp ++ frames_text K rest
  end.

(** A well-formed stack: [chain m fp fps] when [fps] lists the frame
    pointers from [fp] along the saved links, none of them zero, and the
    link saved in the last one is the zero sentinel. *)
Fixpoint chain (m : memory) (fp : Z) (fps : list Z) : Prop :=
  match fps with
  | [] => fp = 0
  | f :: rest => f = fp /\ fp <> 0 /\ chain m (load32 m fp) rest
  end.

End Monitor.

(** ** Concrete kernels and lines *)

Module Examples.
Import Word CStr Printfmt Monitor.

(** A memory given by the words at a few addresses; zero elsewhere. *)
Fixpoint memory_of (l : list (Z * Z)) : memory :=
  match l with
  | [] => fun _ => 0
  | (a, w) :: rest => fun p => if p =? a then w else memory_of rest p
  end.

(** A stack of two frames: the frame at [0xf010ff58] was called from the
    frame at [0xf010ff78], whose saved link is the zero sentinel. *)
Definition stack2 : memory :=
  memory_of
    [ (4027645784, 4027645816); (4027645788, 4027582553); (4027645792, 1);
      (4027645796, 4027645848); (4027645800, 0); (4027645804, 4027582861);
      (4027645808, 4027585572);
      (4027645816, 0); (4027645820, 4027580478); (4027645824, 5);
      (4027645828, 6828); (4027645832, 1604); (4027645836, 0); (4027645840, 0) ].

(** The record of a resolver that found nothing: its status is negative. *)
Definition unknown_info (addr : Z) : Eipdebuginfo :=
  {| eip_file := "<unknown>"; eip_line := 0; eip_fn_name := "<unknown>";
     eip_fn_namelen := 9; eip_fn_addr := addr; eip_fn_narg := 0 |}.

(** A resolver that places every address 16 bytes into [bar], at
    [foo.c:42]; the name lies in a longer table entry. *)
Definition bar_info (addr : Z) : Eipdebuginfo :=
  {| eip_file := "foo.c"; eip_line := 42; eip_fn_name := "bar:F(0,1)";
     eip_fn_namelen := 3; eip_fn_addr := wrap32 (addr - 16); eip_fn_narg := 0 |}.

Definition kernel_with (resolve : Z -> Z * Eipdebuginfo) : Kernel :=
  {| mem := stack2; read_ebp := 4027645784; debuginfo_eip := resolve;
     sym_start := 1048588; sym_entry := 4027580428; sym_etext := 4027587000;
     sym_edata := 4027600000; sym_end := 4027610000; KERNBASE := 4026531840;
     ROUNDUP := fun a n => wrap32 (a + n - 1) - wrap32 (a + n - 1) mod n |}.

Definition K_unresolved : Kernel := kernel_with (fun a => (-1, unknown_info a)).
Definition K_resolved : Kernel := kernel_with (fun a => (0, bar_info a)).

(** The buffer holding a line, written as a C literal. *)
Definition line (s : string) : buffer := list_ascii_of_string (lit s).

(** Lines of fifteen and of sixteen tokens, the second one with a first
    token that is no command of the kernel; a line of two spaces. *)
Definition fifteen : buffer := line "help b c d e f g h i j k l m n o".
Definition sixteen : buffer := line "x b c d e f g h i j k l m n o p".
Definition spaces : buffer := line "  ".

(** A table with a command that asks the monitor to exit: a code pointer
    is the value its handler returns, and the handler prints nothing. *)
Definition exit_commands : list (Command Z) :=
  [ {| name := "nop"; desc := "Do nothing"; func := 0 |};
    {| name := "exit"; desc := "Leave the monitor"; func := -1 |} ].

Definition call_const (f : Z) (argc : Z) (argv : list string) (tf : Trapframe)
           (out : console) : option (Z * console) :=
  Some (f, out).

(** A handler that never returns. *)
Definition call_never (f : Z) (argc : Z) (argv : list string) (tf : Trapframe)
           (out : console) : option (Z * console) :=
  None.

End Examples.

(** ** Further words for what the monitor does *)

Module Behaviour.
Import Word CStr Printfmt Monitor.

(** The text [help] prints for a table: a line [<name> - <desc>] for each
    command, in the order of the table. *)
Fixpoint listing {Func : Type} (cmds : list (Command Func)) : string :=
  match cmds with
  | [] => EmptyString
  | c :: rest => name c ++ " - " ++ desc c ++ String LF EmptyString ++ listing rest
  end.

(** What is left of a call of [runcmd] for the console user: the return
    value and the console. *)
Definition visible (r : option outcome) : option (Z * console) :=
  option_map (fun o => (retval o, cons o)) r.

(** A character of a token: neither NUL nor whitespace. *)
Definition token_char (c : ascii) : bool := nonzero c && negb (is_whitespace c).

(** The characters of a buffer with the whitespace of its line replaced by
    NUL; from the terminating NUL on nothing changes. *)
Fixpoint zap (l : list ascii) : list ascii :=
  match l with
  | [] => []
  | c :: r => if nonzero c then (if is_whitespace c then NUL else c) :: zap r else c :: r
  end.

(** [c'] is what a pass of [runcmd] may leave in place of [c]: [c] itself,
    or NUL where [c] was whitespace. *)
Definition overwritten (c c' : ascii) : Prop :=
  c' = c \/ (is_whitespace c = true /\ c' = NUL).

(** Strictly increasing offsets. *)
Fixpoint increasing (l : list nat) : Prop :=
  match l with
  | [] => True
  | p :: rest => Forall (fun q => (p < q)%nat) rest /\ increasing rest
  end.

(** A text without whitespace. *)
Fixpoint no_whitespace (s : string) : bool :=
  match s with
  | EmptyString => true
  | String c r => negb (is_whitespace c) && no_whitespace r
  end.

(** A text without a newline. *)
Fixpoint no_newline (s : string) : bool :=
  match s with
  | EmptyString => true
  | String c r => negb (Ascii.eqb c LF) && no_newline r
  end.

(** The frame pointer reached from [fp] after [n] saved links. *)
Fixpoint link (m : memory) (n : nat) (fp : Z) : Z :=
  match n with
  | O => fp
  | S n' => link m n' (load32 m fp)
  end.

(** The seven words of the frame at [fp] that the backtrace reads: the
    saved link, the return address and the five argument words. *)
Definition frame_words (fp : Z) : list Z :=
  map (fun i => wrap32 (fp + 4 * i)) [0; 1; 2; 3; 4; 5; 6].

(** The kernel with another memory. *)
Definition with_mem (K : Kernel) (m : memory) : Kernel :=
  {| mem := m; read_ebp := read_ebp K; debuginfo_eip := debuginfo_eip K;
     sym_start := sym_start K; sym_entry := sym_entry K; sym_etext := sym_etext K;
     sym_edata := sym_edata K; sym_end := sym_end K; KERNBASE := KERNBASE K;
     ROUNDUP := ROUNDUP K |}.

(** What [kerninfo] prints. *)
Definition kerninfo_text (K : Kernel) : string :=
  lit "Special kernel symbols:\n"
  ++ "  _start                  " ++ hex8 (sym_start K) ++ lit " (phys)\n"
  ++ "  entry  " ++ hex8 (sym_entry K) ++ " (virt)  "
  ++ hex8 (sym_entry K - KERNBASE K) ++ lit " (phys)\n"
  ++ "  etext  " ++ hex8 (sym_etext K) ++ " (virt)  "
  ++ hex8 (sym_etext K - KERNBASE K) ++ lit " (phys)\n"
  ++ "  edata  " ++ hex8 (sym_edata K) ++ " (virt)  "
  ++ hex8 (sym_edata K - KERNBASE K) ++ lit " (phys)\n"
  ++ "  end    " ++ hex8 (sym_end K) ++ " (virt)  "
  ++ hex8 (sym_end K - KERNBASE K) ++ lit " (phys)\n"
  ++ "Kernel executable memory footprint: "
  ++ decimal (Z.quot (ROUNDUP K (to_int (sym_end K - sym_entry K)) 1024) 1024)
  ++ lit "KB\n".

(** The two lines [monitor] greets with. *)
Definition banner : string :=
  lit "Welcome to the JOS kernel monitor!\nType 'help' for a list of commands.\n".

(** The console of a state of the loop. *)
Definition console_of (st : repl) : console :=
  match st with
  | Reading out => out
  | Terminal out => out
  end.

(** The outcome with [out] in front of what was printed. *)
Definition after (out : console) (o : outcome) : outcome :=
  {| retval := retval o; cons := out ++ cons o; cmdbuf := cmdbuf o |}.

(** The lines [readline] did return. *)
Fixpoint returned_lines (lines : list (option buffer)) : list (option buffer) :=
  match lines with
  | [] => []
  | None :: rest => returned_lines rest
  | Some b :: rest => Some b :: returned_lines rest
  end.

(** A table in which two commands share a name. *)
Definition twice_commands : list (Command Z) :=
  [ {| name := "nop"; desc := "Do nothing"; func := 0 |};
    {| name := "run"; desc := "The first"; func := 1 |};
    {| name := "run"; desc := "The second"; func := 2 |} ].

(** A memory in which the frame at [0xf010ff58] is its own caller. *)
Definition looping_stack : memory :=
  Examples.memory_of [ (4027645784, 4027645784) ].

End Behaviour.

Import Word CStr Printfmt Monitor.

(** * Facts *)

(** ** Strings *)

Lemma sapp_assoc (a b c : string) : (a ++ b) ++ c = a ++ (b ++ c).
Proof. induction a as [|x a IH]; simpl; [reflexivity | now rewrite IH]. Qed.

Lemma sapp_nil_r (a : string) : a ++ "" = a.
Proof. induction a as [|x a IH]; simpl; [reflexivity | now rewrite IH]. Qed.

Lemma slength_app (a b : string) :
  String.length (a ++ b) = (String.length a + String.length b)%nat.
Proof. induction a as [|x a IH]; simpl; [reflexivity | now rewrite IH]. Qed.

Lemma count_lines_app (a b : string) :
  count_lines (a ++ b) = (count_lines a + count_lines b)%nat.
Proof.
  induction a as [|x a IH]; simpl; [reflexivity |].
  destruct (Ascii.eqb x LF); simpl; now rewrite IH.
Qed.

Lemma sapp_inv_head (a b c : string) : a ++ b = a ++ c -> b = c.
Proof. induction a as [|x a IH]; simpl; intros H; [assumption | injection H; auto]. Qed.

(** ** Machine words *)

Lemma wrap32_range z : 0 <= wrap32 z < 2 ^ 32.
Proof. unfold wrap32. apply Z.mod_pos_bound. lia. Qed.

Lemma wrap32_small z : 0 <= z < 2 ^ 32 -> wrap32 z = z.
Proof. intros H. unfold wrap32. now apply Z.mod_small. Qed.

Lemma wrap32_idem z : wrap32 (wrap32 z) = wrap32 z.
Proof. apply wrap32_small, wrap32_range. Qed.

Lemma wrap32_add_l a b : wrap32 (wrap32 a + b) = wrap32 (a + b).
Proof. unfold wrap32. now rewrite Zplus_mod_idemp_l. Qed.

Lemma load32_wrap m p : load32 m (wrap32 p) = load32 m p.
Proof. unfold load32. now rewrite wrap32_idem. Qed.

Lemma load32_range m p : 0 <= load32 m p < 2 ^ 32.
Proof. apply wrap32_range. Qed.

Lemma to_int_zero z : 0 <= z < 2 ^ 32 -> (to_int z =? 0) = (z =? 0).
Proof.
  intros H. unfold to_int. rewrite (wrap32_small z H).
  destruct (Z.ltb_spec z (2 ^ 31)); [reflexivity |].
  destruct (Z.eqb_spec (z - 2 ^ 32) 0), (Z.eqb_spec z 0); try reflexivity; lia.
Qed.

Lemma to_int_small z : - 2 ^ 31 <= z < 2 ^ 31 -> to_int z = z.
Proof.
  intros H. unfold to_int, wrap32.
  destruct (Z_lt_le_dec z 0) as [Hn | Hp].
  - assert (E : z mod 2 ^ 32 = z + 2 ^ 32).
    { symmetry. apply (Z.mod_unique z (2 ^ 32) (-1)); lia. }
    rewrite E. destruct (Z.ltb_spec (z + 2 ^ 32) (2 ^ 31)); lia.
  - rewrite Z.mod_small by lia. destruct (Z.ltb_spec z (2 ^ 31)); lia.
Qed.

Lemma to_int_wrap z : to_int (wrap32 z) = to_int z.
Proof. unfold to_int. now rewrite wrap32_idem. Qed.

Lemma wrap32_sub_l a b : wrap32 (wrap32 a - b) = wrap32 (a - b).
Proof. unfold wrap32. now rewrite Zminus_mod_idemp_l. Qed.

Lemma wrap32_to_int z : wrap32 (to_int z) = wrap32 z.
Proof.
  unfold to_int. destruct (wrap32 z <? 2 ^ 31); [apply wrap32_idem |].
  unfold wrap32 at 1. replace (wrap32 z - 2 ^ 32) with (wrap32 z + (-1) * 2 ^ 32) by lia.
  rewrite Z_mod_plus_full. apply wrap32_idem.
Qed.

Lemma to_int_congr a b : wrap32 a = wrap32 b -> to_int a = to_int b.
Proof. unfold to_int. now intros ->. Qed.

(** ** Fixed-width hexadecimal *)

Lemma padding_snoc c n : padding c n ++ String c "" = String c (padding c n).
Proof. induction n as [|n IH]; simpl; [reflexivity | now rewrite IH]. Qed.

Lemma hex_fixed_zero n : hex_fixed n 0 = padding "0"%char n.
Proof.
  induction n as [|n IH]; simpl; [reflexivity |].
  rewrite Zdiv_0_l, IH. apply padding_snoc.
Qed.

Lemma hex_fixed_length n v : String.length (hex_fixed n v) = n.
Proof.
  revert v. induction n as [|n IH]; intros v; simpl; [reflexivity |].
  rewrite slength_app, IH. simpl. lia.
Qed.

Lemma printnum_fuel_S f num base w c :
  printnum_fuel (S f) num base w c
  = (if base <=? num then printnum_fuel f (num / base) base (w - 1) c
     else padding c (Z.to_nat (w - 1)))
    ++ String (digit (num mod base)) "".
Proof. reflexivity. Qed.

Lemma hex_fixed_S n v :
  hex_fixed (S n) v = hex_fixed n (v / 16) ++ String (digit (v mod 16)) "".
Proof. reflexivity. Qed.

(** With enough fuel, [printnum] in base 16, padded with zeros to a width
    that holds the number, prints the number's fixed-width digits. *)
Lemma printnum_fuel_hex f : forall n num,
  0 <= num < 2 ^ Z.of_nat (S f) -> num < 16 ^ Z.of_nat (S n) ->
  printnum_fuel (S f) num 16 (Z.of_nat (S n)) "0"%char = hex_fixed (S n) num.
Proof.
  induction f as [|f IH]; intros n num Hf Hn.
  - change (2 ^ Z.of_nat 1) with 2 in Hf.
    rewrite printnum_fuel_S, hex_fixed_S.
    destruct (Z.leb_spec 16 num); [lia |].
    rewrite (Z.div_small num 16) by lia. rewrite hex_fixed_zero.
    replace (Z.to_nat (Z.of_nat (S n) - 1)) with n by lia. reflexivity.
  - rewrite printnum_fuel_S, hex_fixed_S.
    destruct (Z.leb_spec 16 num) as [Hge | Hlt].
    + destruct n as [|n].
      { change (16 ^ Z.of_nat 1) with 16 in Hn. lia. }
      replace (Z.of_nat (S (S n)) - 1) with (Z.of_nat (S n)) by lia.
      rewrite IH; [reflexivity | |].
      * split; [apply Z.div_pos; lia |].
        apply Z.div_lt_upper_bound; [lia |].
        replace (Z.of_nat (S (S f))) with (Z.of_nat (S f) + 1) in Hf by lia.
        rewrite Z.pow_add_r in Hf by lia. lia.
      * apply Z.div_lt_upper_bound; [lia |].
        replace (Z.of_nat (S (S n))) with (Z.of_nat (S n) + 1) in Hn by lia.
        rewrite Z.pow_add_r in Hn by lia. lia.
    + rewrite (Z.div_small num 16) by lia. rewrite hex_fixed_zero.
      replace (Z.to_nat (Z.of_nat (S n) - 1)) with n by lia. reflexivity.
Qed.

Lemma log2_fuel num : 0 <= num -> num < 2 ^ Z.of_nat (S (Z.to_nat (Z.log2 num))).
Proof.
  intros H. rewrite Nat2Z.inj_succ, Z2Nat.id by apply Z.log2_nonneg.
  destruct (Z.eq_dec num 0) as [-> | Hnz]; [reflexivity |].
  apply Z.log2_spec. lia.
Qed.

(** [%08x] prints exactly the eight hex digits of the 32-bit value. *)
Lemma print_unsigned_hex8 v : print_unsigned v 16 8 "0"%char = hex8 v.
Proof.
  unfold print_unsigned, printnum, hex8.
  pose proof (wrap32_range v) as Hr.
  apply (printnum_fuel_hex _ 7%nat).
  - split; [lia | apply log2_fuel; lia].
  - change (16 ^ Z.of_nat 8) with (2 ^ 32). lia.
Qed.

Lemma hex8_length v : String.length (hex8 v) = 8%nat.
Proof. apply hex_fixed_length. Qed.

(** ** Backtrace *)

Lemma load32_ptr_add m p n : load32 m (ptr_add p n) = load32 m (p + 4 * n).
Proof. apply load32_wrap. Qed.

Lemma ptr_add_ptr_add p a b : ptr_add (ptr_add p a) b = ptr_add p (a + b).
Proof.
  unfold ptr_add. rewrite wrap32_add_l. f_equal. lia.
Qed.

Lemma cprintf_frame_head a b out :
  cprintf "ebp %08x eip %08x args " [VInt a; VInt b] out
  = out ++ "ebp " ++ hex8 a ++ " eip " ++ hex8 b ++ " args ".
Proof. rewrite <- !print_unsigned_hex8. reflexivity. Qed.

Lemma cprintf_frame_arg w out :
  cprintf "%08x " [VInt w] out = out ++ hex8 w ++ " ".
Proof. rewrite <- print_unsigned_hex8. reflexivity. Qed.

Lemma cprintf_newline out : cprintf (lit "\n") [] out = out ++ String LF "".
Proof. reflexivity. Qed.

Lemma print_string_plain s w p c : w <= 0 -> print_string s w p c = bounded p s.
Proof.
  intros H. unfold print_string.
  destruct (Z.ltb_spec 0 w); [lia |]. cbn [andb].
  replace (Z.to_nat (w - Z.of_nat (String.length (bounded p s)))) with O by lia.
  apply sapp_nil_r.
Qed.

Lemma cprintf_symbols file line len fn off out :
  cprintf (lit "%s:%d: %.*s+%d\n") [VStr file; VInt line; VInt len; VStr fn; VInt off] out
  = out ++ symbol_line file line (bounded (to_int len) fn) off.
Proof.
  unfold cprintf, symbol_line, decimal. f_equal.
  lazy -[print_signed print_string to_int append bounded].
  rewrite !print_string_plain by lia.
  reflexivity.
Qed.

(** The raw frame line is all [mon_print_frame] prints, given the return
    address read one word past the frame pointer. *)
Lemma mon_print_frame_raw K base_ptr out :
  mon_print_frame K base_ptr (load32 (mem K) (ptr_add base_ptr 1)) out
  = out ++ raw_line (frame_at (mem K) base_ptr).
Proof.
  unfold mon_print_frame, raw_line, frame_at.
  cbn [mon_print_frame_args frame_pointer return_address argument_window map fold_right].
  rewrite cprintf_frame_head, !cprintf_frame_arg, cprintf_newline.
  rewrite !ptr_add_ptr_add, !load32_ptr_add.
  cbn [Z.add Z.mul Pos.add Pos.mul Pos.succ].
  rewrite !sapp_assoc, Z.add_0_r.
  replace (base_ptr + 8 + 4) with (base_ptr + 12) by lia.
  replace (base_ptr + 8 + 8) with (base_ptr + 16) by lia.
  replace (base_ptr + 8 + 12) with (base_ptr + 20) by lia.
  replace (base_ptr + 8 + 16) with (base_ptr + 24) by lia.
  reflexivity.
Qed.

Lemma mon_print_symbols_line K ret_ptr out :
  mon_print_symbols K ret_ptr out
  = out ++ symbol_line (eip_file (snd (debuginfo_eip K ret_ptr)))
             (eip_line (snd (debuginfo_eip K ret_ptr)))
             (function_name (snd (debuginfo_eip K ret_ptr)))
             (byte_offset ret_ptr (eip_fn_addr (snd (debuginfo_eip K ret_ptr)))).
Proof.
  unfold mon_print_symbols. rewrite cprintf_symbols.
  unfold function_name, byte_offset. do 2 f_equal.
  apply to_int_congr.
  rewrite <- (wrap32_sub_l (to_int ret_ptr)), wrap32_to_int. apply wrap32_sub_l.
Qed.

Lemma mon_print_frame_descr_text K base_ptr out :
  mon_print_frame_descr K base_ptr out = out ++ frame_text K base_ptr.
Proof.
  unfold mon_print_frame_descr, frame_text.
  rewrite mon_print_frame_raw, mon_print_symbols_line, load32_ptr_add, sapp_assoc.
  replace (base_ptr + 4 * 1) with (base_ptr + 4) by lia.
  reflexivity.
Qed.

Lemma digit_not_newline d : Ascii.eqb (digit d) LF = false.
Proof.
  unfold digit. generalize (Z.to_nat d) as n. intros n.
  do 17 (destruct n as [|n]; [reflexivity |]). reflexivity.
Qed.

Lemma hex_fixed_no_newline n v : count_lines (hex_fixed n v) = O.
Proof.
  revert v. induction n as [|n IH]; intros v; [reflexivity |].
  rewrite hex_fixed_S, count_lines_app, IH. cbn [count_lines].
  now rewrite digit_not_newline.
Qed.

Lemma raw_line_one_line m fp : count_lines (raw_line (frame_at m fp)) = 1%nat.
Proof.
  unfold raw_line, frame_at, hex8.
  cbn [frame_pointer return_address argument_window map fold_right].
  repeat (rewrite count_lines_app || rewrite hex_fixed_no_newline).
  reflexivity.
Qed.

Lemma symbol_line_ends_line file line fn off :
  exists text, symbol_line file line fn off = text ++ String LF "".
Proof.
  unfold symbol_line.
  exists (file ++ ":" ++ decimal line ++ ": " ++ fn ++ "+" ++ decimal off).
  now rewrite !sapp_assoc.
Qed.

(** The loop of [mon_backtrace] on a well-formed stack of [N] frames: the
    [N] frames are printed in order and the loop ends at the [N+1]-th test
    of its condition, not before. *)
Lemma mon_backtrace_loop_chain K fps : forall fp out fuel,
  0 <= fp < 2 ^ 32 -> chain (mem K) fp fps ->
  mon_backtrace_loop K fuel fp out
  = if (List.length fps <? fuel)%nat then Some (out ++ frames_text K fps) else None.
Proof.
  induction fps as [|f fps IH]; intros fp out fuel Hr Hc; cbn [chain] in Hc.
  - subst fp. destruct fuel as [|fuel]; [reflexivity |].
    cbn. now rewrite sapp_nil_r.
  - destruct Hc as (-> & Hnz & Hc).
    destruct fuel as [|fuel]; [reflexivity |].
    cbn [mon_backtrace_loop]. rewrite to_int_zero by assumption.
    destruct (Z.eqb_spec fp 0) as [E | _]; [contradiction |].
    cbn [negb]. rewrite (IH _ _ fuel (load32_range _ _) Hc).
    rewrite mon_print_frame_descr_text.
    change (List.length (fp :: fps) <? S fuel)%nat with (List.length fps <? fuel)%nat.
    destruct (List.length fps <? fuel)%nat; [| reflexivity].
    cbn [frames_text]. now rewrite sapp_assoc.
Qed.

(** C4.  For every frame, [mon_print_frame_descr] first prints the raw
    frame line: the frame pointer, the return address read one word (4
    bytes) past the frame pointer, and exactly five argument words read
    from two words (8 bytes) past the frame pointer on, each as eight
    hexadecimal digits, whatever the callee's arity (which the monitor has
    no access to).  The symbol line is printed after it. *)
Theorem raw_frame_line (K : Kernel) (base_ptr : Z) (out : console) :
  mon_print_frame_descr K base_ptr out
  = mon_print_symbols K (load32 (mem K) (base_ptr + 4))
      (out ++ "ebp " ++ hex8 base_ptr
           ++ " eip " ++ hex8 (load32 (mem K) (base_ptr + 4))
           ++ " args " ++ hex8 (load32 (mem K) (base_ptr + 8))
           ++ " " ++ hex8 (load32 (mem K) (base_ptr + 12))
           ++ " " ++ hex8 (load32 (mem K) (base_ptr + 16))
           ++ " " ++ hex8 (load32 (mem K) (base_ptr + 20))
           ++ " " ++ hex8 (load32 (mem K) (base_ptr + 24))
           ++ " " ++ String LF "")
  /\ raw_line (frame_at (mem K) base_ptr)
     = "ebp " ++ hex8 base_ptr
       ++ " eip " ++ hex8 (load32 (mem K) (base_ptr + 4))
       ++ " args " ++ hex8 (load32 (mem K) (base_ptr + 8))
       ++ " " ++ hex8 (load32 (mem K) (base_ptr + 12))
       ++ " " ++ hex8 (load32 (mem K) (base_ptr + 16))
       ++ " " ++ hex8 (load32 (mem K) (base_ptr + 20))
       ++ " " ++ hex8 (load32 (mem K) (base_ptr + 24))
       ++ " " ++ String LF ""
  /\ List.length (argument_window (frame_at (mem K) base_ptr)) = 5%nat
  /\ (forall v, String.length (hex8 v) = 8%nat)
  /\ count_lines (raw_line (frame_at (mem K) base_ptr)) = 1%nat.
Proof.
  assert (E : raw_line (frame_at (mem K) base_ptr)
     = "ebp " ++ hex8 base_ptr
       ++ " eip " ++ hex8 (load32 (mem K) (base_ptr + 4))
       ++ " args " ++ hex8 (load32 (mem K) (base_ptr + 8))
       ++ " " ++ hex8 (load32 (mem K) (base_ptr + 12))
       ++ " " ++ hex8 (load32 (mem K) (base_ptr + 16))
       ++ " " ++ hex8 (load32 (mem K) (base_ptr + 20))
       ++ " " ++ hex8 (load32 (mem K) (base_ptr + 24))
       ++ " " ++ String LF "").
  { unfold raw_line, frame_at.
    cbn [frame_pointer return_address argument_window map fold_right].
    rewrite Z.add_0_r.
    replace (base_ptr + 8 + 4 * 1) with (base_ptr + 12) by lia.
    replace (base_ptr + 8 + 4 * 2) with (base_ptr + 16) by lia.
    replace (base_ptr + 8 + 4 * 3) with (base_ptr + 20) by lia.
    replace (base_ptr + 8 + 4 * 4) with (base_ptr + 24) by lia.
    reflexivity. }
  split; [| split; [exact E | split; [reflexivity | split]]].
  - unfold mon_print_frame_descr.
    rewrite mon_print_frame_raw, E, load32_ptr_add.
    replace (base_ptr + 4 * 1) with (base_ptr + 4) by lia. reflexivity.
  - apply hex8_length.
  - apply raw_line_one_line.
Qed.

(** C1, as the code has it.  For every frame, whether the resolution of
    its return address succeeds or fails, [mon_print_frame_descr] prints
    the raw frame line (one line) and then a symbol line, formatted from
    the record the resolver filled in; the resolver's status takes no part
    in the output. *)
Theorem frame_lines_any_status (K : Kernel) (base_ptr : Z) (out : console) :
  mon_print_frame_descr K base_ptr out
  = out ++ raw_line (frame_at (mem K) base_ptr)
        ++ symbol_line
             (eip_file (snd (debuginfo_eip K (load32 (mem K) (base_ptr + 4)))))
             (eip_line (snd (debuginfo_eip K (load32 (mem K) (base_ptr + 4)))))
             (function_name (snd (debuginfo_eip K (load32 (mem K) (base_ptr + 4)))))
             (byte_offset (load32 (mem K) (base_ptr + 4))
                (eip_fn_addr (snd (debuginfo_eip K (load32 (mem K) (base_ptr + 4))))))
  /\ count_lines (raw_line (frame_at (mem K) base_ptr)) = 1%nat
  /\ (count_lines (frame_text K base_ptr) >= 2)%nat.
Proof.
  split; [apply mon_print_frame_descr_text | split; [apply raw_line_one_line |]].
  unfold frame_text. rewrite count_lines_app, raw_line_one_line.
  destruct (symbol_line_ends_line
              (eip_file (snd (debuginfo_eip K (return_address (frame_at (mem K) base_ptr)))))
              (eip_line (snd (debuginfo_eip K (return_address (frame_at (mem K) base_ptr)))))
              (function_name
                 (snd (debuginfo_eip K (return_address (frame_at (mem K) base_ptr)))))
              (byte_offset (return_address (frame_at (mem K) base_ptr))
                 (eip_fn_addr
                    (snd (debuginfo_eip K (return_address (frame_at (mem K) base_ptr)))))))
    as [text ->].
  rewrite count_lines_app. cbn. lia.
Qed.

(** C1, as stated, fails: the resolver of [K_unresolved] fails on the
    return address of the frame at [0xf010ff58], and the frame still gets
    two lines, the second one a symbol line. *)
Lemma unresolved_frame_two_lines :
  fst (debuginfo_eip Examples.K_unresolved
         (load32 (mem Examples.K_unresolved) (4027645784 + 4))) = -1
  /\ mon_print_frame_descr Examples.K_unresolved 4027645784 ""
     = lit "ebp f010ff58 eip f0100859 args 00000001 f010ff98 00000000 f010098d f0101424 \n<unknown>:0: <unknown>+0\n"
  /\ mon_print_frame_descr Examples.K_unresolved 4027645784 ""
     <> raw_line (frame_at (mem Examples.K_unresolved) 4027645784)
  /\ count_lines (mon_print_frame_descr Examples.K_unresolved 4027645784 "") = 2%nat.
Proof.
  split; [reflexivity | split; [vm_compute; reflexivity | split; [| vm_compute; reflexivity]]].
  vm_compute. discriminate.
Qed.

(** C3.  When the resolver's record for the return address holds [file],
    [line], the function name [fn] (the first [eip_fn_namelen] characters
    of [eip_fn_name]) and the function's start address [start], the symbol
    line is exactly [<file>:<line>: <fn>+<offset>] and a newline, where
    [offset] is the difference of the return address and [start] in the
    monitor's 32-bit [int]: the plain difference whenever that fits an
    [int].  In particular, for [foo.c], 42, [bar] and a return address 16
    bytes past [start], the line is [foo.c:42: bar+16]. *)
Theorem symbol_line_format (K : Kernel) (ret_ptr : Z) (out : console)
        (file : string) (line : Z) (fn : string) (start : Z) :
  eip_file (snd (debuginfo_eip K ret_ptr)) = file ->
  eip_line (snd (debuginfo_eip K ret_ptr)) = line ->
  function_name (snd (debuginfo_eip K ret_ptr)) = fn ->
  eip_fn_addr (snd (debuginfo_eip K ret_ptr)) = start ->
  mon_print_symbols K ret_ptr out
  = out ++ file ++ ":" ++ decimal line ++ ": " ++ fn ++ "+"
        ++ decimal (byte_offset ret_ptr start) ++ String LF ""
  /\ (- 2 ^ 31 <= ret_ptr - start < 2 ^ 31 -> byte_offset ret_ptr start = ret_ptr - start)
  /\ (file = "foo.c" -> line = 42 -> fn = "bar" -> wrap32 ret_ptr = wrap32 (start + 16) ->
      mon_print_symbols K ret_ptr out = out ++ lit "foo.c:42: bar+16\n").
Proof.
  intros Hfile Hline Hfn Hstart.
  assert (E : mon_print_symbols K ret_ptr out
              = out ++ symbol_line file line fn (byte_offset ret_ptr start)).
  { rewrite mon_print_symbols_line. now rewrite Hfile, Hline, Hfn, Hstart. }
  split; [exact E | split].
  - intros Hr. now apply to_int_small.
  - intros -> -> -> Hret. rewrite E. f_equal.
    assert (Hoff : byte_offset ret_ptr start = 16).
    { unfold byte_offset. transitivity (to_int 16); [| reflexivity].
      apply to_int_congr. rewrite <- wrap32_sub_l, Hret, wrap32_sub_l.
      f_equal. lia. }
    rewrite Hoff. reflexivity.
Qed.

Lemma symbol_line_format_witness :
  function_name (snd (debuginfo_eip Examples.K_resolved 4027580505)) = "bar"
  /\ eip_fn_addr (snd (debuginfo_eip Examples.K_resolved 4027580505)) = 4027580489
  /\ mon_print_symbols Examples.K_resolved 4027580505 "K> "
     = "K> " ++ lit "foo.c:42: bar+16\n".
Proof.
  split; [reflexivity | split; [reflexivity |]].
  apply (symbol_line_format Examples.K_resolved 4027580505 "K> " "foo.c" 42 "bar" 4027580489);
    reflexivity.
Defined.

(** C2.  On a well-formed stack, where the frame pointers [fps] lead from
    the current frame pointer along the saved links to the zero sentinel,
    [mon_backtrace] prints exactly the frames of [fps], in that order
    (callee first), and returns 0.  It ends at the test that finds the
    frame pointer zero, the [N+1]-th for [N] frames: with fuel for [N]
    tests or fewer the loop has not ended. *)
Theorem backtrace_walks_chain (K : Kernel) (fps : list Z) (fuel : nat)
        (argc : Z) (argv : list string) (tf : Trapframe) (out : console) :
  chain (mem K) (wrap32 (read_ebp K)) fps ->
  mon_backtrace K fuel argc argv tf out
  = if (List.length fps <? fuel)%nat then Some (0, out ++ frames_text K fps) else None.
Proof.
  intros Hc. unfold mon_backtrace.
  rewrite (mon_backtrace_loop_chain K fps _ out fuel (wrap32_range _) Hc).
  now destruct (List.length fps <? fuel)%nat.
Qed.

Lemma backtrace_walks_chain_witness :
  chain (mem Examples.K_resolved) (wrap32 (read_ebp Examples.K_resolved))
    [4027645784; 4027645816]
  /\ mon_backtrace Examples.K_resolved 3 1 ["backtrace"] 0 ""
     = Some (0, frame_text Examples.K_resolved 4027645784
                ++ frame_text Examples.K_resolved 4027645816).
Proof.
  assert (Hc : chain (mem Examples.K_resolved) (wrap32 (read_ebp Examples.K_resolved))
                 [4027645784; 4027645816]).
  { cbn [chain]. repeat split; try reflexivity; discriminate. }
  split; [exact Hc |].
  rewrite (backtrace_walks_chain Examples.K_resolved _ 3 1 ["backtrace"] 0 "" Hc).
  cbn [List.length Nat.ltb Nat.leb frames_text append]. now rewrite sapp_nil_r.
Defined.

(** ** The command buffer *)

Lemma strchr_WHITESPACE c : strchr WHITESPACE c = is_whitespace c.
Proof.
  change (strchr WHITESPACE c)
    with (if Ascii.eqb TAB c then true
          else if Ascii.eqb CR c then true
          else if Ascii.eqb LF c then true
          else if Ascii.eqb " " c then true else false).
  unfold is_whitespace. rewrite !(Ascii.eqb_sym c).
  destruct (Ascii.eqb TAB c), (Ascii.eqb CR c), (Ascii.eqb LF c), (Ascii.eqb " " c);
    reflexivity.
Qed.

Lemma peek_app pre suf : peek (pre ++ suf)%list (List.length pre) = hd NUL suf.
Proof.
  unfold peek. induction pre as [|x pre IH]; [now destruct suf | exact IH].
Qed.

Lemma poke_app pre c r x :
  poke (pre ++ c :: r)%list (List.length pre) x = (pre ++ x :: r)%list.
Proof. induction pre as [|y pre IH]; cbn; [reflexivity | now rewrite IH]. Qed.

Lemma peek_skipn b n : peek b n = hd NUL (skipn n b).
Proof.
  unfold peek. revert b. induction n as [|n IH]; intros [|x b]; cbn; auto.
Qed.

(** Reading a C string stops at the NUL, or the end, that follows [x]. *)
Lemma cstring_app_stop x y : hd NUL y = NUL -> cstring (x ++ y)%list = cstring x.
Proof.
  intros Hy. induction x as [|c x IH]; cbn.
  - destruct y as [|d y]; [reflexivity |]. cbn in Hy. subst d. reflexivity.
  - now rewrite IH.
Qed.

Lemma length_snoc {A} (l : list A) x : List.length (l ++ [x])%list = S (List.length l).
Proof. rewrite length_app. cbn. lia. Qed.

(** The first inner loop, from offset [length pre] of the buffer
    [pre ++ suf]: the run of whitespace is overwritten. *)
Lemma gobble_zip suf : forall pre fuel,
  (List.length suf < fuel)%nat ->
  gobble fuel (pre ++ suf)%list (List.length pre)
  = Some ((pre ++ repeat NUL (ws_run suf)) ++ skipn (ws_run suf) suf,
          List.length (pre ++ repeat NUL (ws_run suf)))%list.
Proof.
  induction suf as [|c r IH]; intros pre fuel Hf.
  - destruct fuel as [|fuel]; [cbn in Hf; lia |].
    cbn [gobble]. rewrite peek_app. cbn. now rewrite !app_nil_r.
  - destruct fuel as [|fuel]; [cbn in Hf; lia |].
    cbn [gobble ws_run]. rewrite peek_app, strchr_WHITESPACE. cbn [hd].
    destruct (nonzero c && is_whitespace c).
    + rewrite poke_app.
      replace (pre ++ NUL :: r)%list with ((pre ++ [NUL]) ++ r)%list
        by now rewrite <- app_assoc.
      rewrite <- (length_snoc pre NUL).
      rewrite IH by (cbn in Hf; lia).
      cbn [repeat skipn]. now rewrite <- !app_assoc.
    + cbn. now rewrite !app_nil_r.
Qed.

(** The second inner loop: it stops past the run of token characters. *)
Lemma scan_zip suf : forall pre fuel,
  (List.length suf < fuel)%nat ->
  scan fuel (pre ++ suf)%list (List.length pre)
  = Some (List.length (pre ++ firstn (tok_run suf) suf))%list.
Proof.
  induction suf as [|c r IH]; intros pre fuel Hf.
  - destruct fuel as [|fuel]; [cbn in Hf; lia |].
    cbn [scan]. rewrite peek_app. cbn. now rewrite !app_nil_r.
  - destruct fuel as [|fuel]; [cbn in Hf; lia |].
    cbn [scan tok_run]. rewrite peek_app, strchr_WHITESPACE. cbn [hd].
    destruct (nonzero c && negb (is_whitespace c)).
    + replace (pre ++ c :: r)%list with ((pre ++ [c]) ++ r)%list
        by now rewrite <- app_assoc.
      rewrite <- (length_snoc pre c).
      rewrite IH by (cbn in Hf; lia).
      cbn [firstn]. now rewrite <- !app_assoc.
    + cbn. now rewrite !app_nil_r.
Qed.

(** ** Tokens *)

Lemma tokens_ws c r : is_whitespace c = true -> tokens (String c r) = tokens r.
Proof.
  intros H. unfold tokens. cbn [fields]. destruct (fields r) as [w ws].
  rewrite H. reflexivity.
Qed.

(** The token at the head of a line and the tokens after it, in terms of
    the run of token characters that starts the line. *)
Lemma fields_cstring l :
  fields (cstring l)
  = (cstring (firstn (tok_run l) l), tokens (cstring (skipn (tok_run l) l))).
Proof.
  induction l as [|c r IH]; [reflexivity |].
  cbn [cstring tok_run]. destruct (nonzero c) eqn:Hc; cbn [andb].
  - cbn [fields]. rewrite IH. destruct (is_whitespace c) eqn:Hw; cbn [negb].
    + cbn [firstn skipn cstring]. rewrite Hc. f_equal.
      rewrite (tokens_ws c _ Hw). unfold tokens. now rewrite IH.
    + cbn [firstn skipn cstring]. now rewrite Hc.
  - cbn [firstn skipn cstring]. now rewrite Hc.
Qed.

Lemma tokens_cstring_tok l :
  tokens (cstring l)
  = push_token (cstring (firstn (tok_run l) l)) (tokens (cstring (skipn (tok_run l) l))).
Proof. unfold tokens at 1. now rewrite fields_cstring. Qed.

Lemma tokens_cstring_ws l : tokens (cstring l) = tokens (cstring (skipn (ws_run l) l)).
Proof.
  induction l as [|c r IH]; [reflexivity |].
  cbn [ws_run]. destruct (nonzero c) eqn:Hc; cbn [andb]; [| reflexivity].
  destruct (is_whitespace c) eqn:Hw; [| reflexivity].
  cbn [skipn cstring]. rewrite Hc, (tokens_ws c _ Hw). exact IH.
Qed.

Lemma ws_run_stop l :
  nonzero (hd NUL (skipn (ws_run l) l)) && is_whitespace (hd NUL (skipn (ws_run l) l))
  = false.
Proof.
  induction l as [|c r IH]; [reflexivity |].
  cbn [ws_run]. destruct (nonzero c && is_whitespace c) eqn:E; [exact IH | exact E].
Qed.

Lemma tok_run_stop l :
  nonzero (hd NUL (skipn (tok_run l) l))
  && negb (is_whitespace (hd NUL (skipn (tok_run l) l))) = false.
Proof.
  induction l as [|c r IH]; [reflexivity |].
  cbn [tok_run]. destruct (nonzero c && negb (is_whitespace c)) eqn:E;
    [exact IH | exact E].
Qed.

Lemma cstring_hd_NUL l : hd NUL l = NUL -> cstring l = "".
Proof. destruct l as [|c r]; [reflexivity |]. cbn. now intros ->. Qed.

(** A line that starts with a token character starts with a token. *)
Lemma tokens_cstring_cons l :
  nonzero (hd NUL l) = true -> is_whitespace (hd NUL l) = false ->
  (0 < tok_run l)%nat
  /\ tokens (cstring l)
     = cstring (firstn (tok_run l) l) :: tokens (cstring (skipn (tok_run l) l)).
Proof.
  intros Hc Hw. rewrite tokens_cstring_tok.
  destruct l as [|c r]; [discriminate |]. cbn [hd] in Hc, Hw.
  cbn [tok_run]. rewrite Hc, Hw. cbn [andb negb firstn cstring]. rewrite Hc.
  split; [lia | reflexivity].
Qed.

(** ** The parsing loop *)

Lemma parse_loop_S fuel b p argv :
  parse_loop (S fuel) b p argv
  = match gobble (S (List.length b)) b p with
    | None => None
    | Some (b, p) =>
        if Ascii.eqb (peek b p) NUL then Some (Args b argv)
        else if (List.length argv =? MAXARGS - 1)%nat then Some (TooMany b)
        else match scan (S (List.length b)) b p with
             | None => None
             | Some p' => parse_loop fuel b p' (argv ++ [p])%list
             end
    end.
Proof. reflexivity. Qed.

Lemma firstn_length_app {A} (pre x : list A) :
  firstn (List.length pre) (pre ++ x)%list = pre.
Proof. induction pre as [|a pre IH]; cbn; [reflexivity | now rewrite IH]. Qed.

Lemma skipn_length_app {A} (pre x : list A) :
  skipn (List.length pre) (pre ++ x)%list = x.
Proof. induction pre as [|a pre IH]; cbn; [reflexivity | exact IH]. Qed.

Lemma firstn_prefix {A} (a x b : list A) :
  firstn (List.length (a ++ x)%list) b = (a ++ x)%list -> firstn (List.length a) b = a.
Proof.
  intros H.
  rewrite <- (firstn_skipn (List.length (a ++ x)%list) b), H, <- app_assoc.
  apply firstn_length_app.
Qed.

(** A pointer saved at the start of a token reads as that token once the
    character after the token has been zeroed. *)
Lemma str_at_token pre x b :
  firstn (List.length (pre ++ x)%list) b = (pre ++ x)%list ->
  peek b (List.length (pre ++ x)%list) = NUL ->
  str_at b (List.length pre) = cstring x.
Proof.
  intros Hf Hp. unfold str_at.
  rewrite <- (firstn_skipn (List.length (pre ++ x)%list) b), Hf, <- app_assoc.
  rewrite skipn_length_app. apply cstring_app_stop.
  now rewrite <- peek_skipn.
Qed.

Lemma peek_written pre k x b :
  firstn (List.length ((pre ++ repeat NUL k) ++ x)%list) b
  = ((pre ++ repeat NUL k) ++ x)%list ->
  (0 < k)%nat -> peek b (List.length pre) = NUL.
Proof.
  intros Hf Hk.
  rewrite peek_skipn, <- (firstn_skipn (List.length ((pre ++ repeat NUL k) ++ x)%list) b).
  rewrite Hf, <- !app_assoc, skipn_length_app.
  destruct k as [|k]; [lia | reflexivity].
Qed.

(** The parsing loop from offset [length pre] of the buffer [pre ++ suf],
    with [argv] already saved.  With room for the tokens of [suf] it ends
    at the [break]: the pointers saved for them read as these tokens in
    the final buffer, nothing before the offset has changed, and a
    separator at the offset has been zeroed.  Without room it ends at the
    [return 0] of the overflow. *)
Lemma parse_loop_zip fuel : forall suf pre argv,
  (List.length suf < fuel)%nat -> (List.length argv <= 15)%nat ->
  ((List.length argv + List.length (tokens (cstring suf)) <= 15)%nat ->
   exists b' ptrs,
     parse_loop fuel (pre ++ suf)%list (List.length pre) argv
     = Some (Args b' (argv ++ ptrs)%list)
     /\ map (str_at b') ptrs = tokens (cstring suf)
     /\ firstn (List.length pre) b' = pre
     /\ (nonzero (hd NUL suf) && negb (is_whitespace (hd NUL suf)) = false ->
         peek b' (List.length pre) = NUL))
  /\ ((15 < List.length argv + List.length (tokens (cstring suf)))%nat ->
      exists b', parse_loop fuel (pre ++ suf)%list (List.length pre) argv
                 = Some (TooMany b')).
Proof.
  induction fuel as [|fuel IH]; intros suf pre argv Hfuel Hargv; [lia |].
  rewrite parse_loop_S, gobble_zip by (rewrite length_app; lia).
  rewrite (tokens_cstring_ws suf).
  pose proof (ws_run_stop suf) as Hstop.
  set (k := ws_run suf) in *.
  set (rest := skipn k suf) in *.
  assert (Hrest : (List.length rest <= List.length suf)%nat).
  { unfold rest. rewrite length_skipn. lia. }
  set (pre1 := (pre ++ repeat NUL k)%list).
  rewrite peek_app.
  destruct (Ascii.eqb_spec (hd NUL rest) NUL) as [Hnul | Hnz].
  - (* the line ends here *)
    rewrite (cstring_hd_NUL rest Hnul). cbn [tokens fields push_token List.length].
    split; [| lia].
    intros _. exists (pre1 ++ rest)%list, [].
    rewrite app_nil_r. repeat split.
    + unfold pre1. rewrite <- app_assoc. apply firstn_length_app.
    + intros _. unfold pre1. rewrite <- app_assoc, peek_app.
      destruct k as [|k]; [exact Hnul | reflexivity].
  - (* a token starts here *)
    assert (Hc : nonzero (hd NUL rest) = true).
    { unfold nonzero. now destruct (Ascii.eqb_spec (hd NUL rest) NUL). }
    assert (Hw : is_whitespace (hd NUL rest) = false).
    { rewrite Hc in Hstop. exact Hstop. }
    destruct (tokens_cstring_cons rest Hc Hw) as [Ht ->].
    pose proof (tok_run_stop rest) as Hstop2.
    set (t := tok_run rest) in *.
    set (rest2 := skipn t rest) in *.
    cbn [List.length].
    change (MAXARGS - 1)%nat with 15%nat.
    destruct (Nat.eqb_spec (List.length argv) 15) as [Hfull | Hroom].
    + split; [lia |]. intros _. now exists (pre1 ++ rest)%list.
    + rewrite scan_zip by (rewrite length_app; lia).
      fold t.
      assert (Hlt : (List.length rest2 < fuel)%nat).
      { unfold rest2. rewrite length_skipn.
        assert (0 < List.length rest)%nat
          by (destruct rest; [discriminate | cbn; lia]).
        lia. }
      assert (Hsplit : (pre1 ++ rest)%list = ((pre1 ++ firstn t rest) ++ rest2)%list).
      { unfold rest2. now rewrite <- app_assoc, firstn_skipn. }
      rewrite Hsplit.
      assert (Hargv' : (List.length (argv ++ [List.length pre1]) <= 15)%nat)
        by (rewrite length_snoc; lia).
      destruct (IH rest2 (pre1 ++ firstn t rest)%list (argv ++ [List.length pre1])%list
                  Hlt Hargv') as [IH1 IH2].
      rewrite length_snoc in IH1, IH2.
      split.
      * intros Hle. destruct IH1 as (b' & ptrs & Hrun & Hmap & Hfirst & Hpeek); [lia |].
        exists b', (List.length pre1 :: ptrs).
        rewrite Hrun. repeat split.
        -- now rewrite <- app_assoc.
        -- cbn [map]. rewrite Hmap. f_equal.
           apply (str_at_token pre1 (firstn t rest) b' Hfirst (Hpeek Hstop2)).
        -- unfold pre1 in Hfirst. rewrite <- app_assoc in Hfirst.
           exact (firstn_prefix _ _ _ Hfirst).
        -- intros Hstop0. destruct (Nat.eq_dec k 0) as [Hk | Hk].
           ++ exfalso. unfold rest in Hc, Hw. rewrite Hk in Hc, Hw.
              cbn [skipn] in Hc, Hw. rewrite Hc, Hw in Hstop0. discriminate.
           ++ apply (peek_written pre k (firstn t rest) b' Hfirst). lia.
      * intros Hgt. apply IH2. lia.
Qed.

(** [parse] always ends: at the [break] with the tokens of the line when
    there are at most 15, at the overflow when there are more. *)
Lemma parse_tokens buf :
  ((List.length (tokens (line_of buf)) <= 15)%nat ->
   exists b' argv, parse buf = Some (Args b' argv)
                   /\ map (str_at b') argv = tokens (line_of buf))
  /\ ((15 < List.length (tokens (line_of buf)))%nat ->
      exists b', parse buf = Some (TooMany b')).
Proof.
  destruct (parse_loop_zip (S (List.length buf)) buf [] [] (Nat.lt_succ_diag_r _)
              (Nat.le_0_l 15)) as [H1 H2].
  split.
  - intros Hle. destruct (H1 Hle) as (b' & ptrs & Hrun & Hmap & _).
    now exists b', ptrs.
  - exact H2.
Qed.

Lemma ws_run_whole l :
  hd NUL (skipn (ws_run l) l) = NUL -> String.length (cstring l) = ws_run l.
Proof.
  induction l as [|c r IH]; [reflexivity |].
  cbn [ws_run cstring]. destruct (nonzero c) eqn:Hc; cbn [andb].
  - destruct (is_whitespace c).
    + cbn [skipn String.length]. intros H. now rewrite IH.
    + cbn [skipn hd]. intros ->. discriminate.
  - reflexivity.
Qed.

(** A line without tokens: the first inner loop runs to the end of the
    line and the parsing loop ends at once. *)
Lemma parse_blank buf :
  tokens (line_of buf) = [] -> parse buf = Some (Args (blank_line buf) []).
Proof.
  intros HT. unfold parse.
  rewrite parse_loop_S.
  pose proof (gobble_zip buf [] _ (Nat.lt_succ_diag_r (List.length buf))) as G.
  cbn [app List.length] in G. rewrite G, peek_app.
  assert (Hnul : hd NUL (skipn (ws_run buf) buf) = NUL).
  { destruct (Ascii.eqb_spec (hd NUL (skipn (ws_run buf) buf)) NUL) as [E | Hnz];
      [exact E | exfalso].
    pose proof (ws_run_stop buf) as Hstop.
    assert (Hc : nonzero (hd NUL (skipn (ws_run buf) buf)) = true).
    { unfold nonzero.
      now destruct (Ascii.eqb_spec (hd NUL (skipn (ws_run buf) buf)) NUL). }
    rewrite Hc in Hstop.
    destruct (tokens_cstring_cons _ Hc Hstop) as [_ E].
    unfold line_of in HT. rewrite tokens_cstring_ws, E in HT. discriminate. }
  rewrite Hnul. cbn [Ascii.eqb Bool.eqb NUL].
  unfold blank_line, line_of. now rewrite (ws_run_whole buf Hnul).
Qed.

Lemma all_whitespace_tokens s : all_whitespace s = true <-> tokens s = [].
Proof.
  induction s as [|c r IH]; [now split |].
  cbn [all_whitespace]. destruct (is_whitespace c) eqn:Hw; cbn [andb].
  - now rewrite (tokens_ws c r Hw).
  - split; [discriminate |].
    unfold tokens. cbn [fields]. destruct (fields r) as [w ws]. rewrite Hw.
    discriminate.
Qed.

Lemma blank_line_empty buf : line_of (blank_line buf) = "".
Proof.
  unfold blank_line, line_of.
  destruct (String.length (cstring buf)) as [|n] eqn:E; [| reflexivity].
  cbn [repeat app skipn]. now destruct (cstring buf).
Qed.

Lemma blank_line_length buf : List.length (blank_line buf) = List.length buf.
Proof.
  unfold blank_line, line_of.
  assert (H : forall l, (String.length (cstring l) <= List.length l)%nat).
  { induction l as [|c r IH]; cbn; [lia |]. destruct (nonzero c); cbn; lia. }
  rewrite length_app, repeat_length, length_skipn. specialize (H buf). lia.
Qed.

(** ** Command names *)

Lemma strcmp_refl p : strcmp p p = 0.
Proof.
  induction p as [|c p IH]; [reflexivity |].
  cbn [strcmp]. now rewrite Ascii.eqb_refl.
Qed.

Lemma nat_of_ascii_zero c : nat_of_ascii c = O -> c = NUL.
Proof.
  intros H. rewrite <- (ascii_nat_embedding c), H. reflexivity.
Qed.

Lemma strcmp_eq p : forall q,
  nul_free p = true -> nul_free q = true -> strcmp p q = 0 -> p = q.
Proof.
  induction p as [|c p IH]; intros [|d q] Hp Hq H; cbn [strcmp nul_free] in *.
  - reflexivity.
  - apply andb_prop in Hq. destruct Hq as [Hd _]. exfalso.
    assert (E : d = NUL) by (apply nat_of_ascii_zero; lia).
    subst d. discriminate.
  - apply andb_prop in Hp. destruct Hp as [Hc _]. exfalso.
    assert (E : c = NUL) by (apply nat_of_ascii_zero; lia).
    subst c. discriminate.
  - apply andb_prop in Hp, Hq. destruct Hp as [_ Hp], Hq as [_ Hq].
    destruct (Ascii.eqb_spec c d) as [-> | Hne].
    + f_equal. now apply IH.
    + exfalso. apply Hne.
      rewrite <- (ascii_nat_embedding c), <- (ascii_nat_embedding d).
      f_equal. lia.
Qed.

Lemma cstring_nul_free l : nul_free (cstring l) = true.
Proof.
  induction l as [|c r IH]; [reflexivity |].
  cbn [cstring]. destruct (nonzero c) eqn:Hc; [| reflexivity].
  cbn [nul_free]. now rewrite Hc.
Qed.

Lemma fields_nul_free s :
  nul_free s = true ->
  nul_free (fst (fields s)) = true
  /\ Forall (fun t => nul_free t = true) (snd (fields s)).
Proof.
  induction s as [|c r IH]; intros H; [now split |].
  cbn [nul_free] in H. apply andb_prop in H. destruct H as [Hc Hr].
  destruct (IH Hr) as [Hw Hws].
  cbn [fields]. destruct (fields r) as [w ws]. cbn [fst snd] in Hw, Hws.
  destruct (is_whitespace c); cbn [fst snd].
  - split; [reflexivity |]. destruct w; [exact Hws | now constructor].
  - split; [cbn [nul_free]; now rewrite Hc | exact Hws].
Qed.

Lemma tokens_nul_free buf : Forall (fun t => nul_free t = true) (tokens (line_of buf)).
Proof.
  unfold tokens, line_of.
  destruct (fields_nul_free _ (cstring_nul_free buf)) as [Hw Hws].
  destruct (fields (cstring buf)) as [w ws]. cbn [fst snd] in Hw, Hws.
  destruct w; [exact Hws | now constructor].
Qed.

Section Lookup.
Variable Func : Type.
Variable cmds : list (Command Func).

(** The [for] loop of [runcmd] finds nothing when no name of the table
    is the token. *)
Lemma find_command_none t0 :
  nul_free t0 = true ->
  Forall (fun c => nul_free (name c) = true) cmds ->
  (forall c, In c cmds -> name c <> t0) ->
  find_command t0 cmds = None.
Proof.
  intros Ht. induction cmds as [|c rest IH]; intros Hwf Hno; [reflexivity |].
  cbn [find_command]. inversion Hwf as [|? ? Hc Hrest]; subst.
  destruct (Z.eqb_spec (strcmp t0 (name c)) 0) as [E | _].
  - exfalso. apply (Hno c (or_introl eq_refl)). symmetry.
    now apply strcmp_eq.
  - apply IH; [exact Hrest |]. intros c' Hin. apply Hno. now right.
Qed.

(** What it finds is a command of the table whose name is the token. *)
Lemma find_command_some t0 c :
  nul_free t0 = true ->
  Forall (fun c => nul_free (name c) = true) cmds ->
  find_command t0 cmds = Some c -> In c cmds /\ name c = t0.
Proof.
  intros Ht. induction cmds as [|c' rest IH]; intros Hwf H; [discriminate |].
  cbn [find_command] in H. inversion Hwf as [|? ? Hc Hrest]; subst.
  destruct (Z.eqb_spec (strcmp t0 (name c')) 0) as [E | _].
  - injection H as <-. split; [now left |]. symmetry. now apply strcmp_eq.
  - destruct (IH Hrest H) as [Hin Hn]. split; [now right | exact Hn].
Qed.

End Lookup.

(** ** [runcmd] *)

Lemma cprintf_too_many out :
  cprintf (lit "Too many arguments (max %d)\n") [VInt (Z.of_nat MAXARGS)] out
  = out ++ lit "Too many arguments (max 16)\n".
Proof.
  assert (E : vprintfmt (lit "Too many arguments (max %d)\n") None
                [VInt (Z.of_nat MAXARGS)]
              = lit "Too many arguments (max 16)\n") by (vm_compute; reflexivity).
  unfold cprintf. now rewrite E.
Qed.

Lemma cprintf_unknown t0 out :
  cprintf (lit "Unknown command '%s'\n") [VStr t0] out
  = out ++ "Unknown command '" ++ t0 ++ lit "'\n".
Proof.
  unfold cprintf. f_equal.
  lazy -[print_string append].
  now rewrite print_string_plain by lia.
Qed.

Section Runcmd.
Variable Func : Type.
Variable call : Func -> Z -> list string -> Trapframe -> console -> option (Z * console).
Variable cmds : list (Command Func).

(** More than 15 tokens: the overflow message, 0, and nothing else. *)
Lemma runcmd_overflow buf :
  (15 < List.length (tokens (line_of buf)))%nat ->
  exists b', forall tf out,
    runcmd call cmds buf tf out
    = Some {| retval := 0; cons := out ++ lit "Too many arguments (max 16)\n";
              cmdbuf := b' |}.
Proof.
  intros H. destruct (proj2 (parse_tokens buf) H) as [b' Hp].
  exists b'. intros tf out. unfold runcmd. rewrite Hp.
  now rewrite cprintf_too_many.
Qed.

(** No token: 0, nothing printed, the line blanked. *)
Lemma runcmd_blank buf tf out :
  tokens (line_of buf) = [] ->
  runcmd call cmds buf tf out
  = Some {| retval := 0; cons := out; cmdbuf := blank_line buf |}.
Proof.
  intros H. unfold runcmd. now rewrite (parse_blank buf H).
Qed.

(** From 1 to 15 tokens: the table is searched for the first one. *)
Lemma runcmd_dispatch buf t0 rest :
  tokens (line_of buf) = t0 :: rest -> (List.length (t0 :: rest) <= 15)%nat ->
  exists b', forall tf out,
    runcmd call cmds buf tf out
    = match find_command t0 cmds with
      | Some c =>
          match call (func c) (Z.of_nat (List.length (t0 :: rest))) (t0 :: rest) tf out
          with
          | Some (r, out') => Some {| retval := r; cons := out'; cmdbuf := b' |}
          | None => None
          end
      | None =>
          Some {| retval := 0;
                  cons := out ++ "Unknown command '" ++ t0 ++ lit "'\n";
                  cmdbuf := b' |}
      end.
Proof.
  intros HT Hle. rewrite <- HT in Hle.
  destruct (proj1 (parse_tokens buf) Hle) as (b' & argv & Hp & Hmap).
  exists b'. intros tf out. unfold runcmd. rewrite Hp, Hmap, HT.
  assert (Hlen : List.length argv = List.length (t0 :: rest)).
  { rewrite <- HT, <- Hmap. now rewrite length_map. }
  rewrite Hlen. cbn [nth].
  destruct (Z.eqb_spec (Z.of_nat (List.length (t0 :: rest))) 0) as [E | _];
    [cbn [List.length] in E; lia |].
  now rewrite cprintf_unknown.
Qed.

End Runcmd.

(** ** The claims on the command interpreter *)

(** C5, as the code has it.  The tokenizer accepts at most [MAXARGS - 1],
    that is 15, tokens per line: for such a line the parsing loop ends
    with pointers that read as the tokens of the line.  A line of 16
    tokens or more aborts tokenization: [runcmd] prints
    "Too many arguments (max 16)", returns 0 and calls no handler (its
    outcome is the same whatever the handlers do). *)
Theorem tokenizer_capacity (buf : buffer) :
  ((List.length (tokens (line_of buf)) <= 15)%nat ->
   exists b' argv, parse buf = Some (Args b' argv)
                   /\ map (str_at b') argv = tokens (line_of buf))
  /\ ((16 <= List.length (tokens (line_of buf)))%nat ->
      exists b', parse buf = Some (TooMany b')
        /\ forall Func (call : Func -> Z -> list string -> Trapframe -> console
                               -> option (Z * console))
                  (cmds : list (Command Func)) tf out,
             runcmd call cmds buf tf out
             = Some {| retval := 0;
                       cons := out ++ lit "Too many arguments (max 16)\n";
                       cmdbuf := b' |}).
Proof.
  split; [exact (proj1 (parse_tokens buf)) |].
  intros H. destruct (proj2 (parse_tokens buf) H) as [b' Hp].
  exists b'. split; [exact Hp |].
  intros Func call cmds tf out. unfold runcmd. rewrite Hp.
  now rewrite cprintf_too_many.
Qed.

Lemma tokenizer_capacity_witness :
  (List.length (tokens (line_of Examples.fifteen)) <= 15)%nat
  /\ exists b' argv, parse Examples.fifteen = Some (Args b' argv)
                     /\ map (str_at b') argv = tokens (line_of Examples.fifteen).
Proof.
  assert (H : (List.length (tokens (line_of Examples.fifteen)) <= 15)%nat)
    by (apply Nat.leb_le; reflexivity).
  split; [exact H |].
  exact (proj1 (tokenizer_capacity Examples.fifteen) H).
Defined.

(** C5, as stated, fails: a line of exactly 16 tokens does not exceed
    [MAXARGS], and it is rejected. *)
Lemma sixteen_tokens_rejected :
  List.length (tokens (line_of Examples.sixteen)) = MAXARGS
  /\ option_map (fun o => (retval o, cons o))
       (kernel_runcmd Examples.K_resolved 3 Examples.sixteen 0 "")
     = Some (0, lit "Too many arguments (max 16)\n")
  /\ exists b', parse Examples.sixteen = Some (TooMany b').
Proof.
  split; [reflexivity | split; [vm_compute; reflexivity |]].
  vm_compute. eexists. reflexivity.
Qed.

(** C6.  For every line of 16 tokens or more, [runcmd] prints the
    overflow message "Too many arguments (max 16)" and returns 0; no
    handler is called: the outcome is the same for every table and
    whatever the handlers would do, return or not. *)
Theorem overflow_reported (Func : Type) (cmds : list (Command Func)) (buf : buffer) :
  (16 <= List.length (tokens (line_of buf)))%nat ->
  exists b', forall call tf out,
    runcmd call cmds buf tf out
    = Some {| retval := 0; cons := out ++ lit "Too many arguments (max 16)\n";
              cmdbuf := b' |}.
Proof.
  intros H. destruct (proj2 (parse_tokens buf) H) as [b' Hp].
  exists b'. intros call tf out. unfold runcmd. rewrite Hp.
  now rewrite cprintf_too_many.
Qed.

Lemma overflow_reported_witness :
  (16 <= List.length (tokens (line_of Examples.sixteen)))%nat
  /\ exists b', forall call tf out,
       runcmd call Examples.exit_commands Examples.sixteen tf out
       = Some {| retval := 0; cons := out ++ lit "Too many arguments (max 16)\n";
                 cmdbuf := b' |}.
Proof.
  assert (H : (16 <= List.length (tokens (line_of Examples.sixteen)))%nat)
    by (apply Nat.leb_le; reflexivity).
  split; [exact H |].
  exact (overflow_reported Z Examples.exit_commands Examples.sixteen H).
Defined.

(** C7, as the code has it.  For every line whose first token is the name
    of no command of the table, [runcmd] calls no handler (its outcome is
    the same whatever the handlers do) and returns 0, so that the loop of
    [monitor] goes on to read the next line.  When the line has at most 15
    tokens it prints "Unknown command '<token>'"; a line of 16 tokens or
    more gets the overflow message instead. *)
Theorem unknown_command_reported (Func : Type) (cmds : list (Command Func))
        (buf : buffer) (t0 : string) (rest : list string) :
  tokens (line_of buf) = t0 :: rest ->
  Forall (fun c => nul_free (name c) = true) cmds ->
  (forall c, In c cmds -> name c <> t0) ->
  find_command t0 cmds = None
  /\ exists b', forall call tf out,
       runcmd call cmds buf tf out
       = Some {| retval := 0;
                 cons := out ++ (if (List.length (t0 :: rest) <=? 15)%nat
                                 then "Unknown command '" ++ t0 ++ lit "'\n"
                                 else lit "Too many arguments (max 16)\n");
                 cmdbuf := b' |}
       /\ monitor_turn call cmds (Some buf) tf out
          = Some (Reading
                    (out ++ (if (List.length (t0 :: rest) <=? 15)%nat
                             then "Unknown command '" ++ t0 ++ lit "'\n"
                             else lit "Too many arguments (max 16)\n"))).
Proof.
  intros HT Hwf Hno.
  assert (Ht0 : nul_free t0 = true).
  { pose proof (tokens_nul_free buf) as H. rewrite HT in H. now inversion H. }
  pose proof (find_command_none Func cmds t0 Ht0 Hwf Hno) as Hfind.
  split; [exact Hfind |].
  destruct (Nat.leb_spec (List.length (t0 :: rest)) 15) as [Hle | Hgt].
  - destruct (proj1 (parse_tokens buf)) as (b & argv & Hp & Hmap);
      [rewrite HT; exact Hle |].
    exists b. intros call tf out.
    assert (E : runcmd call cmds buf tf out
                = Some {| retval := 0;
                          cons := out ++ "Unknown command '" ++ t0 ++ lit "'\n";
                          cmdbuf := b |}).
    { unfold runcmd. rewrite Hp, Hmap, HT. cbn [nth].
      assert (Hlen : List.length argv = List.length (t0 :: rest)).
      { rewrite <- HT, <- Hmap. now rewrite length_map. }
      rewrite Hlen, Hfind, cprintf_unknown.
      destruct (Z.eqb_spec (Z.of_nat (List.length (t0 :: rest))) 0) as [E | _];
        [cbn [List.length] in E; lia | reflexivity]. }
    split; [exact E |]. unfold monitor_turn. rewrite E. reflexivity.
  - destruct (proj2 (parse_tokens buf)) as [b Hp]; [rewrite HT; exact Hgt |].
    exists b. intros call tf out.
    assert (E : runcmd call cmds buf tf out
                = Some {| retval := 0;
                          cons := out ++ lit "Too many arguments (max 16)\n";
                          cmdbuf := b |}).
    { unfold runcmd. rewrite Hp. now rewrite cprintf_too_many. }
    split; [exact E |]. unfold monitor_turn. rewrite E. reflexivity.
Qed.

Lemma unknown_command_reported_witness :
  tokens (line_of (Examples.line " frobnicate\tnow ")) = ["frobnicate"; "now"]
  /\ exists b', forall call tf out,
       runcmd call commands (Examples.line " frobnicate\tnow ") tf out
       = Some {| retval := 0;
                 cons := out ++ "Unknown command '" ++ "frobnicate" ++ lit "'\n";
                 cmdbuf := b' |}
       /\ monitor_turn call commands (Some (Examples.line " frobnicate\tnow ")) tf out
          = Some (Reading (out ++ "Unknown command '" ++ "frobnicate" ++ lit "'\n")).
Proof.
  split; [reflexivity |].
  refine (proj2 (unknown_command_reported builtin commands
                   (Examples.line " frobnicate\tnow ") "frobnicate" ["now"]
                   eq_refl _ _)).
  - repeat constructor.
  - intros c [<- | [<- | [<- | []]]]; discriminate.
Defined.

(** C7, as stated, fails: the first token of this line of 16 tokens is no
    command of the kernel, and the monitor reports the overflow, not an
    unknown command. *)
Lemma unknown_first_token_of_sixteen :
  hd "" (tokens (line_of Examples.sixteen)) = "x"
  /\ find_command "x" commands = None
  /\ option_map cons (kernel_runcmd Examples.K_resolved 3 Examples.sixteen 0 "")
     = Some (lit "Too many arguments (max 16)\n")
  /\ option_map cons (kernel_runcmd Examples.K_resolved 3 Examples.sixteen 0 "")
     <> Some ("Unknown command '" ++ "x" ++ lit "'\n").
Proof.
  split; [reflexivity | split; [reflexivity | split; [vm_compute; reflexivity |]]].
  vm_compute. discriminate.
Qed.

(** C8, as the code has it.  For every empty or all-whitespace line the
    tokenizer yields no token, [runcmd] calls no handler, prints nothing
    and returns 0.  The one change of state is in the command buffer: the
    whitespace of the line has been overwritten with NUL, so that the
    buffer now holds the empty line (and an empty line is left as it
    was). *)
Theorem blank_line_is_noop (Func : Type)
        (call : Func -> Z -> list string -> Trapframe -> console -> option (Z * console))
        (cmds : list (Command Func)) (buf : buffer) (tf : Trapframe) (out : console) :
  all_whitespace (line_of buf) = true ->
  tokens (line_of buf) = []
  /\ parse buf = Some (Args (blank_line buf) [])
  /\ runcmd call cmds buf tf out
     = Some {| retval := 0; cons := out; cmdbuf := blank_line buf |}
  /\ line_of (blank_line buf) = ""
  /\ List.length (blank_line buf) = List.length buf
  /\ (line_of buf = "" -> blank_line buf = buf).
Proof.
  intros H. apply all_whitespace_tokens in H.
  split; [exact H | split; [now apply parse_blank | split; [now apply runcmd_blank |]]].
  split; [apply blank_line_empty | split; [apply blank_line_length |]].
  intros E. unfold blank_line. now rewrite E.
Qed.

Lemma blank_line_is_noop_witness :
  all_whitespace (line_of Examples.spaces) = true
  /\ runcmd Examples.call_never Examples.exit_commands Examples.spaces 0 "K> "
     = Some {| retval := 0; cons := "K> "; cmdbuf := [NUL; NUL] |}.
Proof.
  split; [reflexivity |].
  exact (proj1 (proj2 (proj2 (blank_line_is_noop Z Examples.call_never
                                Examples.exit_commands Examples.spaces 0 "K> "
                                eq_refl)))).
Defined.

(** C8, as stated, fails: after [runcmd] on a line of two spaces the
    command buffer holds two NULs. *)
Lemma spaces_are_overwritten :
  all_whitespace (line_of Examples.spaces) = true
  /\ option_map cmdbuf (kernel_runcmd Examples.K_resolved 3 Examples.spaces 0 "")
     = Some [NUL; NUL]
  /\ option_map cmdbuf (kernel_runcmd Examples.K_resolved 3 Examples.spaces 0 "")
     <> Some Examples.spaces.
Proof.
  split; [reflexivity | split; [reflexivity |]].
  vm_compute. discriminate.
Qed.

(** C9.  When a line is dispatched to a handler and the handler returns
    [r], the loop of [monitor] ends if and only if [r] is negative; for
    every other [r] it goes on to read the next line. *)
Theorem handler_return_decides (Func : Type)
        (call : Func -> Z -> list string -> Trapframe -> console -> option (Z * console))
        (cmds : list (Command Func)) (buf : buffer) (tf : Trapframe) (out : console)
        (t0 : string) (rest : list string) (c : Command Func) (r : Z) (out' : console) :
  tokens (line_of buf) = t0 :: rest ->
  (List.length (t0 :: rest) <= 15)%nat ->
  find_command t0 cmds = Some c ->
  call (func c) (Z.of_nat (List.length (t0 :: rest))) (t0 :: rest) tf out = Some (r, out') ->
  (monitor_turn call cmds (Some buf) tf out = Some (Terminal out') <-> r < 0)
  /\ (monitor_turn call cmds (Some buf) tf out = Some (Reading out') <-> 0 <= r)
  /\ forall lines,
       monitor_loop call cmds (Some buf :: lines) tf out
       = if r <? 0 then Some (Terminal out') else monitor_loop call cmds lines tf out'.
Proof.
  intros HT Hle Hfind Hcall.
  destruct (runcmd_dispatch Func call cmds buf t0 rest HT Hle) as [b' Hrun].
  specialize (Hrun tf out). rewrite Hfind, Hcall in Hrun.
  assert (E : monitor_turn call cmds (Some buf) tf out
              = Some (if r <? 0 then Terminal out' else Reading out')).
  { unfold monitor_turn. rewrite Hrun. cbn [retval cons]. now destruct (r <? 0). }
  split; [| split].
  - rewrite E. destruct (Z.ltb_spec r 0); split; intros H'; try reflexivity;
      try discriminate; lia.
  - rewrite E. destruct (Z.ltb_spec r 0); split; intros H'; try reflexivity;
      try discriminate; lia.
  - intros lines. cbn [monitor_loop]. rewrite E. now destruct (r <? 0).
Qed.

Lemma handler_return_decides_witness :
  (monitor_turn Examples.call_const Examples.exit_commands
     (Some (Examples.line "exit now")) 0 "K> " = Some (Terminal "K> ") <-> -1 < 0)
  /\ (monitor_turn Examples.call_const Examples.exit_commands
        (Some (Examples.line "exit now")) 0 "K> " = Some (Reading "K> ") <-> 0 <= -1)
  /\ forall lines,
       monitor_loop Examples.call_const Examples.exit_commands
         (Some (Examples.line "exit now") :: lines) 0 "K> "
       = if -1 <? 0 then Some (Terminal "K> ")
         else monitor_loop Examples.call_const Examples.exit_commands lines 0 "K> ".
Proof.
  refine (handler_return_decides Z Examples.call_const Examples.exit_commands
            (Examples.line "exit now") 0 "K> " "exit" ["now"]
            {| name := "exit"; desc := "Leave the monitor"; func := -1 |} (-1) "K> "
            eq_refl _ eq_refl eq_refl).
  apply Nat.leb_le. reflexivity.
Defined.

(** ** The built-in table *)

Lemma call_builtin_zero K fuel f argc argv tf out r out' :
  call_builtin K fuel f argc argv tf out = Some (r, out') -> r = 0.
Proof.
  destruct f; cbn [call_builtin].
  - unfold mon_help. now intros [= <- _].
  - unfold mon_kerninfo. now intros [= <- _].
  - unfold mon_backtrace.
    destruct (mon_backtrace_loop K fuel (wrap32 (read_ebp K)) out);
      [now intros [= <- _] | discriminate].
Qed.

Lemma commands_nul_free : Forall (fun c => nul_free (name c) = true) commands.
Proof. repeat constructor. Qed.

Lemma kernel_runcmd_zero K fuel buf tf out o :
  kernel_runcmd K fuel buf tf out = Some o -> retval o = 0.
Proof.
  unfold kernel_runcmd.
  destruct (Nat.leb_spec (List.length (tokens (line_of buf))) 15) as [Hle | Hgt].
  - destruct (tokens (line_of buf)) as [|t0 rest] eqn:HT.
    + rewrite (runcmd_blank _ _ _ buf tf out HT). now intros [= <-].
    + destruct (runcmd_dispatch _ (call_builtin K fuel) commands buf t0 rest HT Hle)
        as [b' Hrun].
      rewrite Hrun.
      destruct (find_command t0 commands) as [c |]; [| now intros [= <-]].
      destruct (call_builtin K fuel (func c) _ _ tf out) as [[r out'] |] eqn:Hcall;
        [| discriminate].
      intros [= <-]. cbn [retval]. exact (call_builtin_zero _ _ _ _ _ _ _ _ _ Hcall).
  - destruct (runcmd_overflow _ (call_builtin K fuel) commands buf Hgt) as [b' Hrun].
    rewrite Hrun. now intros [= <-].
Qed.

Lemma kernel_runcmd_returns K fuel buf tf out :
  hd "" (tokens (line_of buf)) <> "backtrace"
  \/ (15 < List.length (tokens (line_of buf)))%nat ->
  exists o, kernel_runcmd K fuel buf tf out = Some o.
Proof.
  intros Hnb. unfold kernel_runcmd.
  destruct (Nat.leb_spec (List.length (tokens (line_of buf))) 15) as [Hle | Hgt].
  - destruct Hnb as [Hnb | Hgt]; [| lia].
    destruct (tokens (line_of buf)) as [|t0 rest] eqn:HT.
    + rewrite (runcmd_blank _ _ _ buf tf out HT). now eexists.
    + destruct (runcmd_dispatch _ (call_builtin K fuel) commands buf t0 rest HT Hle)
        as [b' Hrun].
      rewrite Hrun. cbn [hd] in Hnb.
      assert (Ht0 : nul_free t0 = true).
      { pose proof (tokens_nul_free buf) as H. rewrite HT in H. now inversion H. }
      destruct (find_command t0 commands) as [c |] eqn:Hfind; [| now eexists].
      destruct (find_command_some _ _ _ _ Ht0 commands_nul_free Hfind) as [Hin Hname].
      destruct Hin as [<- | [<- | [<- | []]]]; cbn [func call_builtin].
      * now eexists.
      * now eexists.
      * cbn [name] in Hname. congruence.
  - destruct (runcmd_overflow _ (call_builtin K fuel) commands buf Hgt) as [b' Hrun].
    rewrite Hrun. now eexists.
Qed.

Lemma kernel_turn_reads K fuel line tf out out' :
  monitor_turn (call_builtin K fuel) commands line tf out <> Some (Terminal out').
Proof.
  unfold monitor_turn. destruct line as [buf |]; [| discriminate].
  destruct (runcmd (call_builtin K fuel) commands buf tf out) as [o |] eqn:Hrun;
    [| discriminate].
  rewrite (kernel_runcmd_zero K fuel buf tf out o Hrun). discriminate.
Qed.

Lemma kernel_loop_reads K fuel lines : forall tf out out',
  monitor_loop (call_builtin K fuel) commands lines tf out <> Some (Terminal out').
Proof.
  induction lines as [|line lines IH]; intros tf out out'; [discriminate |].
  cbn [monitor_loop].
  destruct (monitor_turn (call_builtin K fuel) commands line tf out) as [[o | o] |]
    eqn:Hturn.
  - apply IH.
  - exfalso. exact (kernel_turn_reads K fuel line tf out o Hturn).
  - discriminate.
Qed.

(** C10.  With the built-in table, [mon_help] and [mon_kerninfo] return
    0, [mon_backtrace] returns 0 whenever it returns (as it does on a
    well-formed stack, given the fuel), and every return of [runcmd] is 0, on the paths without a handler too (empty line,
    overflow, unknown command).  [runcmd] does return unless the command
    is [backtrace].  So no turn of the loop of [monitor] takes the
    [break], and the monitor never reaches its terminal state, whatever
    lines it reads. *)
Theorem builtin_monitor_never_exits (K : Kernel) (fuel : nat) :
  (forall argc argv tf out, fst (mon_help argc argv tf out) = 0)
  /\ (forall argc argv tf out, fst (mon_kerninfo K argc argv tf out) = 0)
  /\ (forall argc argv tf out r out',
        mon_backtrace K fuel argc argv tf out = Some (r, out') -> r = 0)
  /\ (forall fps argc argv tf out,
        chain (mem K) (wrap32 (read_ebp K)) fps -> (List.length fps < fuel)%nat ->
        exists out', mon_backtrace K fuel argc argv tf out = Some (0, out'))
  /\ (forall buf tf out o, kernel_runcmd K fuel buf tf out = Some o -> retval o = 0)
  /\ (forall buf tf out,
        hd "" (tokens (line_of buf)) <> "backtrace"
        \/ (15 < List.length (tokens (line_of buf)))%nat ->
        exists o, kernel_runcmd K fuel buf tf out = Some o /\ retval o = 0)
  /\ (forall line tf out out',
        monitor_turn (call_builtin K fuel) commands line tf out <> Some (Terminal out'))
  /\ (forall lines tf out out',
        kernel_monitor K fuel lines tf out <> Some (Terminal out')).
Proof.
  repeat split.
  - intros argc argv tf out r out' H.
    exact (call_builtin_zero K fuel Mon_backtrace argc argv tf out r out' H).
  - intros fps argc argv tf out Hc Hlen. unfold mon_backtrace.
    rewrite (mon_backtrace_loop_chain K fps _ out fuel (wrap32_range _) Hc).
    apply Nat.ltb_lt in Hlen. rewrite Hlen. now eexists.
  - intros buf tf out o. apply kernel_runcmd_zero.
  - intros buf tf out H.
    destruct (kernel_runcmd_returns K fuel buf tf out H) as [o Ho].
    exists o. split; [exact Ho | exact (kernel_runcmd_zero K fuel buf tf out o Ho)].
  - intros line tf out out'. apply kernel_turn_reads.
  - intros lines tf out out'. unfold kernel_monitor, monitor. apply kernel_loop_reads.
Qed.

Lemma builtin_monitor_never_exits_witness :
  kernel_runcmd Examples.K_resolved 3 (Examples.line "backtrace") 0 ""
  = Some {| retval := 0;
            cons := frame_text Examples.K_resolved 4027645784
                    ++ frame_text Examples.K_resolved 4027645816;
            cmdbuf := Examples.line "backtrace" |}
  /\ retval {| retval := 0;
               cons := frame_text Examples.K_resolved 4027645784
                       ++ frame_text Examples.K_resolved 4027645816;
               cmdbuf := Examples.line "backtrace" |} = 0.
Proof.
  assert (E : kernel_runcmd Examples.K_resolved 3 (Examples.line "backtrace") 0 ""
              = Some {| retval := 0;
                        cons := frame_text Examples.K_resolved 4027645784
                                ++ frame_text Examples.K_resolved 4027645816;
                        cmdbuf := Examples.line "backtrace" |})
    by (vm_compute; reflexivity).
  split; [exact E |].
  exact (proj1 (proj2 (proj2 (proj2 (proj2
           (builtin_monitor_never_exits Examples.K_resolved 3)))))
           _ _ _ _ E).
Defined.

(** * More of the monitor *)

Import Behaviour.

(** ** [help] *)

Lemma cprintf_help_line n d out :
  cprintf (lit "%s - %s\n") [VStr n; VStr d] out
  = out ++ n ++ " - " ++ d ++ String LF "".
Proof.
  unfold cprintf. f_equal.
  lazy -[print_string append].
  now rewrite !print_string_plain by lia.
Qed.

Lemma mon_help_loop_listing cmds : forall out,
  mon_help_loop cmds out = out ++ listing cmds.
Proof.
  induction cmds as [|c rest IH]; intros out; cbn [mon_help_loop listing].
  - now rewrite sapp_nil_r.
  - rewrite IH, cprintf_help_line. now rewrite !sapp_assoc.
Qed.

(** [help], whatever follows it on the line (up to 15 tokens in all),
    prints one line [<name> - <desc>] for each command of the table, in
    the order of the table, and returns 0. *)
Theorem help_lists_table (K : Kernel) (fuel : nat) (buf : buffer)
        (rest : list string) (tf : Trapframe) (out : console) :
  tokens (line_of buf) = "help" :: rest ->
  (List.length ("help" :: rest) <= 15)%nat ->
  exists b',
    kernel_runcmd K fuel buf tf out
    = Some {| retval := 0; cons := out ++ listing commands; cmdbuf := b' |}
    /\ listing commands
       = lit "help - Display this list of commands\nkerninfo - Display information about the kernel\nbacktrace - Display stack backtrace\n"
    /\ count_lines (listing commands) = NCOMMANDS.
Proof.
  intros HT Hle.
  destruct (runcmd_dispatch _ (call_builtin K fuel) commands buf "help" rest HT Hle)
    as [b' Hrun].
  exists b'. split; [| split; reflexivity].
  unfold kernel_runcmd. rewrite Hrun.
  cbn [find_command commands name func call_builtin strcmp Ascii.eqb Bool.eqb Z.eqb].
  unfold mon_help. now rewrite mon_help_loop_listing.
Qed.

Lemma help_lists_table_witness :
  tokens (line_of (Examples.line "help me\tplease")) = ["help"; "me"; "please"]
  /\ exists b',
       kernel_runcmd Examples.K_resolved 0 (Examples.line "help me\tplease") 0 "K> "
       = Some {| retval := 0; cons := "K> " ++ listing commands; cmdbuf := b' |}
       /\ listing commands
          = lit "help - Display this list of commands\nkerninfo - Display information about the kernel\nbacktrace - Display stack backtrace\n"
       /\ count_lines (listing commands) = NCOMMANDS.
Proof.
  split; [reflexivity |].
  refine (help_lists_table Examples.K_resolved 0 (Examples.line "help me\tplease")
            ["me"; "please"] 0 "K> " eq_refl _).
  apply Nat.leb_le. reflexivity.
Defined.

(** ** Dispatch *)

Lemma find_command_first (Func : Type) (pre post : list (Command Func))
      (c : Command Func) (t0 : string) :
  nul_free t0 = true ->
  Forall (fun d => nul_free (name d) = true) pre ->
  (forall d, In d pre -> name d <> t0) ->
  name c = t0 ->
  find_command t0 (pre ++ c :: post)%list = Some c.
Proof.
  intros Ht Hwf Hno Hc.
  induction pre as [|d pre IH]; cbn [app find_command].
  - rewrite Hc, strcmp_refl. reflexivity.
  - inversion Hwf as [|? ? Hd Hpre]; subst.
    destruct (Z.eqb_spec (strcmp (name c) (name d)) 0) as [E | _].
    + exfalso. apply (Hno d (or_introl eq_refl)). symmetry.
      now apply strcmp_eq.
    + apply IH; [exact Hpre |]. intros d' Hin. apply Hno. now right.
Qed.

(** The first command of the table that bears the name is the one found,
    also when a later command bears the same name. *)
Theorem first_match_wins (Func : Type) (pre post : list (Command Func))
        (c : Command Func) (t0 : string) :
  nul_free t0 = true ->
  Forall (fun d => nul_free (name d) = true) pre ->
  (forall d, In d pre -> name d <> t0) ->
  name c = t0 ->
  find_command t0 (pre ++ c :: post)%list = Some c.
Proof.
  intros Ht Hwf Hno Hc. now apply find_command_first.
Qed.

Lemma first_match_wins_witness :
  find_command "run" twice_commands
  = Some {| name := "run"; desc := "The first"; func := 1 |}.
Proof.
  refine (first_match_wins Z [ {| name := "nop"; desc := "Do nothing"; func := 0 |} ]
            [ {| name := "run"; desc := "The second"; func := 2 |} ]
            {| name := "run"; desc := "The first"; func := 1 |} "run"
            eq_refl _ _ eq_refl).
  - repeat constructor.
  - intros d [<- | []]. discriminate.
Defined.

(** A line of 1 to 15 tokens whose first token names a command runs the
    handler of the first such command, once, with [argc] the number of
    tokens, [argv] the tokens, and the [tf] and console [runcmd] was given;
    what the handler returns and prints is what [runcmd] returns and has
    printed, and [runcmd] does not return when the handler does not. *)
Theorem dispatch_calls_handler (Func : Type)
        (call : Func -> Z -> list string -> Trapframe -> console -> option (Z * console))
        (pre post : list (Command Func)) (c : Command Func)
        (buf : buffer) (t0 : string) (rest : list string) :
  tokens (line_of buf) = t0 :: rest ->
  (List.length (t0 :: rest) <= 15)%nat ->
  Forall (fun d => nul_free (name d) = true) pre ->
  (forall d, In d pre -> name d <> t0) ->
  name c = t0 ->
  forall tf out,
    visible (runcmd call (pre ++ c :: post)%list buf tf out)
    = call (func c) (Z.of_nat (List.length (t0 :: rest))) (t0 :: rest) tf out
    /\ 1 <= Z.of_nat (List.length (t0 :: rest)) < Z.of_nat MAXARGS.
Proof.
  intros HT Hle Hwf Hno Hc tf out.
  assert (Ht0 : nul_free t0 = true).
  { pose proof (tokens_nul_free buf) as H. rewrite HT in H. now inversion H. }
  destruct (runcmd_dispatch Func call (pre ++ c :: post)%list buf t0 rest HT Hle)
    as [b' Hrun].
  rewrite Hrun.
  rewrite (find_command_first Func pre post c t0 Ht0 Hwf Hno Hc). split.
  - destruct (call (func c) _ (t0 :: rest) tf out) as [[r out'] |]; reflexivity.
  - cbn [List.length] in *. unfold MAXARGS. lia.
Qed.

Lemma dispatch_calls_handler_witness :
  visible (runcmd Examples.call_const twice_commands (Examples.line " run it ") 7 "K> ")
  = Examples.call_const 1 (Z.of_nat (List.length ["run"; "it"])) ["run"; "it"] 7 "K> "
  /\ 1 <= Z.of_nat (List.length ["run"; "it"]) < Z.of_nat MAXARGS.
Proof.
  assert (Hle : (List.length ["run"; "it"] <= 15)%nat)
    by (apply Nat.leb_le; reflexivity).
  assert (Hwf : Forall (fun d : Command Z => nul_free (name d) = true)
                  [ {| name := "nop"; desc := "Do nothing"; func := 0 |} ])
    by (repeat constructor).
  assert (Hno : forall d : Command Z,
             In d [ {| name := "nop"; desc := "Do nothing"; func := 0 |} ] ->
             name d <> "run")
    by (intros d [<- | []]; discriminate).
  exact (dispatch_calls_handler Z Examples.call_const
           [ {| name := "nop"; desc := "Do nothing"; func := 0 |} ]
           [ {| name := "run"; desc := "The second"; func := 2 |} ]
           {| name := "run"; desc := "The first"; func := 1 |}
           (Examples.line " run it ") "run" ["it"] eq_refl Hle Hwf Hno eq_refl 7 "K> ").
Defined.






(** ** The buffer after parsing *)

Lemma zap_ws_run l : zap l = (repeat NUL (ws_run l) ++ zap (skipn (ws_run l) l))%list.
Proof.
  induction l as [|c r IH]; [reflexivity |].
  cbn [ws_run zap]. destruct (nonzero c) eqn:Hc; cbn [andb].
  - destruct (is_whitespace c) eqn:Hw.
    + cbn [repeat skipn app]. now rewrite <- IH.
    + cbn [repeat skipn app zap]. now rewrite Hc, Hw.
  - cbn [repeat skipn app zap]. now rewrite Hc.
Qed.

Lemma zap_tok_run l : zap l = (firstn (tok_run l) l ++ zap (skipn (tok_run l) l))%list.
Proof.
  induction l as [|c r IH]; [reflexivity |].
  cbn [tok_run zap]. destruct (nonzero c) eqn:Hc; cbn [andb].
  - destruct (is_whitespace c) eqn:Hw; cbn [negb].
    + cbn [firstn skipn app zap]. now rewrite Hc, Hw.
    + cbn [firstn skipn app]. now rewrite <- IH.
  - cbn [firstn skipn app zap]. now rewrite Hc.
Qed.

Lemma zap_stop l : hd NUL l = NUL -> zap l = l.
Proof. destruct l as [|c r]; [reflexivity |]. cbn. now intros ->. Qed.

Lemma zap_length l : List.length (zap l) = List.length l.
Proof.
  induction l as [|c r IH]; [reflexivity |].
  cbn [zap]. destruct (nonzero c); cbn [List.length]; [now rewrite IH | reflexivity].
Qed.

Lemma zap_overwritten l : Forall2 overwritten l (zap l).
Proof.
  induction l as [|c r IH]; [constructor |].
  cbn [zap]. destruct (nonzero c).
  - constructor; [| exact IH].
    destruct (is_whitespace c) eqn:Hw; [right; now split | now left].
  - constructor; [now left |].
    clear IH. induction r as [|d r IH]; constructor; [now left | exact IH].
Qed.

Lemma overwritten_refl l : Forall2 overwritten l l.
Proof. induction l as [|c r IH]; constructor; [now left | exact IH]. Qed.

Lemma nth_skipn_add {A} (d : A) n : forall l i, nth i (skipn n l) d = nth (n + i) l d.
Proof.
  induction n as [|n IH]; intros l i; [reflexivity |].
  destruct l as [|x l]; [now destruct i | exact (IH l i)].
Qed.

Lemma ws_run_le l : (ws_run l <= List.length l)%nat.
Proof.
  induction l as [|c r IH]; cbn; [lia |].
  destruct (nonzero c && is_whitespace c); cbn; lia.
Qed.

Lemma tok_run_le l : (tok_run l <= List.length l)%nat.
Proof.
  induction l as [|c r IH]; cbn; [lia |].
  destruct (nonzero c && negb (is_whitespace c)); cbn; lia.
Qed.

(** The parsing loop at its [break]: the buffer from the offset on is the
    zapped one, and the pointers saved from here on are increasing offsets
    of token characters of the part not yet parsed. *)
Lemma parse_loop_shape fuel : forall suf pre argv b' argv',
  (List.length suf < fuel)%nat ->
  parse_loop fuel (pre ++ suf)%list (List.length pre) argv = Some (Args b' argv') ->
  b' = (pre ++ zap suf)%list
  /\ exists ptrs,
       argv' = (argv ++ ptrs)%list
       /\ Forall (fun p => (List.length pre <= p)%nat
                           /\ (p - List.length pre < List.length suf)%nat
                           /\ token_char (nth (p - List.length pre) suf NUL) = true) ptrs
       /\ increasing ptrs.
Proof.
  induction fuel as [|fuel IH]; intros suf pre argv b' argv' Hfuel; [lia |].
  rewrite parse_loop_S, gobble_zip by (rewrite length_app; lia).
  pose proof (ws_run_stop suf) as Hstop.
  pose proof (ws_run_le suf) as Hk.
  rewrite (zap_ws_run suf).
  set (k := ws_run suf) in *.
  set (rest := skipn k suf) in *.
  assert (Hrest : List.length rest = (List.length suf - k)%nat)
    by (unfold rest; apply length_skipn).
  set (pre1 := (pre ++ repeat NUL k)%list).
  assert (Hpre1 : List.length pre1 = (List.length pre + k)%nat)
    by (unfold pre1; rewrite length_app, repeat_length; reflexivity).
  rewrite peek_app.
  destruct (Ascii.eqb_spec (hd NUL rest) NUL) as [Hnul | Hnz].
  - intros [= <- <-]. rewrite (zap_stop rest Hnul). unfold pre1.
    split; [now rewrite <- app_assoc |].
    exists []. rewrite app_nil_r. repeat split. constructor.
  - assert (Hc : nonzero (hd NUL rest) = true).
    { unfold nonzero. now destruct (Ascii.eqb_spec (hd NUL rest) NUL). }
    assert (Hw : is_whitespace (hd NUL rest) = false).
    { rewrite Hc in Hstop. exact Hstop. }
    destruct (tokens_cstring_cons rest Hc Hw) as [Ht _].
    pose proof (tok_run_le rest) as Htle.
    rewrite (zap_tok_run rest).
    set (t := tok_run rest) in *.
    set (rest2 := skipn t rest) in *.
    assert (Hrest2 : List.length rest2 = (List.length rest - t)%nat)
      by (unfold rest2; apply length_skipn).
    destruct (List.length argv =? MAXARGS - 1)%nat; [discriminate |].
    rewrite scan_zip by (rewrite length_app; lia).
    fold t.
    assert (Hsplit : (pre1 ++ rest)%list = ((pre1 ++ firstn t rest) ++ rest2)%list).
    { unfold rest2. now rewrite <- app_assoc, firstn_skipn. }
    rewrite Hsplit. intros Hrun.
    assert (Hpre2 : List.length (pre1 ++ firstn t rest)%list
                    = (List.length pre + k + t)%nat).
    { rewrite length_app, length_firstn, Hpre1. lia. }
    destruct (IH rest2 (pre1 ++ firstn t rest)%list _ b' argv' ltac:(lia) Hrun)
      as (Hb & ptrs & Hargv & Hptrs & Hinc).
    split.
    + rewrite Hb. unfold pre1. now rewrite <- !app_assoc.
    + exists (List.length pre1 :: ptrs). split; [now rewrite Hargv, <- app_assoc |].
      assert (Hnth : forall i, nth i rest2 NUL = nth (k + t + i) suf NUL).
      { intros i. unfold rest2, rest. rewrite !nth_skipn_add. f_equal. lia. }
      split; [constructor | split].
      * rewrite Hpre1. replace (List.length pre + k - List.length pre)%nat with k by lia.
        split; [lia | split; [lia |]].
        unfold token_char.
        replace (nth k suf NUL) with (hd NUL rest).
        -- now rewrite Hc, Hw.
        -- unfold rest. rewrite <- peek_skipn. reflexivity.
      * apply Forall_forall. intros p Hin.
        rewrite Forall_forall in Hptrs. destruct (Hptrs p Hin) as (H1 & H2 & H3).
        rewrite Hpre2 in H1, H2, H3. rewrite Hnth in H3.
        split; [lia | split; [lia |]].
        replace (p - List.length pre)%nat with (k + t + (p - (List.length pre + k + t)))%nat
          by lia.
        exact H3.
      * apply Forall_forall. intros p Hin.
        rewrite Forall_forall in Hptrs. destruct (Hptrs p Hin) as (H1 & _).
        rewrite Hpre2 in H1. lia.
      * exact Hinc.
Qed.

Lemma ws_run_overwritten l :
  Forall2 overwritten (firstn (ws_run l) l) (repeat NUL (ws_run l)).
Proof.
  induction l as [|c r IH]; [constructor |].
  cbn [ws_run]. destruct (nonzero c && is_whitespace c) eqn:E; [| constructor].
  apply andb_prop in E. destruct E as [_ Hw].
  cbn [firstn repeat]. constructor; [right; now split | exact IH].
Qed.

(** Whatever the end of the parsing loop, the buffer has only changed in
    that whitespace from the offset on was overwritten with NUL. *)
Lemma parse_loop_overwrites fuel : forall suf pre argv res,
  (List.length suf < fuel)%nat ->
  parse_loop fuel (pre ++ suf)%list (List.length pre) argv = Some res ->
  exists suf',
    match res with Args b' _ => b' | TooMany b' => b' end = (pre ++ suf')%list
    /\ Forall2 overwritten suf suf'.
Proof.
  induction fuel as [|fuel IH]; intros suf pre argv res Hfuel; [lia |].
  rewrite parse_loop_S, gobble_zip by (rewrite length_app; lia).
  pose proof (ws_run_le suf) as Hk.
  assert (Hgob : Forall2 overwritten suf
                   (repeat NUL (ws_run suf) ++ skipn (ws_run suf) suf)%list).
  { clear. induction suf as [|c r IH]; [constructor |].
    cbn [ws_run]. destruct (nonzero c && is_whitespace c) eqn:E.
    - apply andb_prop in E. destruct E as [_ Hw].
      cbn [repeat skipn app]. constructor; [right; now split | exact IH].
    - cbn [repeat skipn app]. apply overwritten_refl. }
  set (k := ws_run suf) in *.
  set (rest := skipn k suf) in *.
  assert (Hrest : List.length rest = (List.length suf - k)%nat)
    by (unfold rest; apply length_skipn).
  set (pre1 := (pre ++ repeat NUL k)%list).
  rewrite peek_app.
  destruct (Ascii.eqb (hd NUL rest) NUL) eqn:Hnul.
  - intros [= <-]. exists (repeat NUL k ++ rest)%list.
    split; [unfold pre1; now rewrite <- app_assoc | exact Hgob].
  - destruct (List.length argv =? MAXARGS - 1)%nat.
    + intros [= <-]. exists (repeat NUL k ++ rest)%list.
      split; [unfold pre1; now rewrite <- app_assoc | exact Hgob].
    + rewrite scan_zip by (rewrite length_app; lia).
      pose proof (tok_run_le rest) as Htle.
      assert (Ht : (0 < tok_run rest)%nat).
      { pose proof (ws_run_stop suf) as Hstop. fold k in Hstop. fold rest in Hstop.
        assert (Hc : nonzero (hd NUL rest) = true) by (unfold nonzero; now rewrite Hnul).
        rewrite Hc in Hstop.
        exact (proj1 (tokens_cstring_cons rest Hc Hstop)). }
      set (t := tok_run rest) in *.
      set (rest2 := skipn t rest) in *.
      assert (Hrest2 : List.length rest2 = (List.length rest - t)%nat)
        by (unfold rest2; apply length_skipn).
      assert (Hsplit : (pre1 ++ rest)%list = ((pre1 ++ firstn t rest) ++ rest2)%list).
      { unfold rest2. now rewrite <- app_assoc, firstn_skipn. }
      rewrite Hsplit. intros Hrun.
      destruct (IH rest2 (pre1 ++ firstn t rest)%list _ res ltac:(lia) Hrun)
        as (suf2 & Hb & Hover).
      exists (repeat NUL k ++ firstn t rest ++ suf2)%list. split.
      * rewrite Hb. unfold pre1. now rewrite <- !app_assoc.
      * rewrite <- (firstn_skipn k suf). fold rest.
        apply Forall2_app; [apply ws_run_overwritten |].
        rewrite <- (firstn_skipn t rest) at 1.
        apply Forall2_app; [apply overwritten_refl | exact Hover].
Qed.

Lemma parse_args_inv buf b' argv :
  parse buf = Some (Args b' argv) ->
  map (str_at b') argv = tokens (line_of buf)
  /\ (List.length (tokens (line_of buf)) <= 15)%nat.
Proof.
  intros Hp.
  destruct (Nat.leb_spec (List.length (tokens (line_of buf))) 15) as [Hle | Hgt].
  - destruct (proj1 (parse_tokens buf) Hle) as (b & a & Hp' & Hmap).
    rewrite Hp in Hp'. injection Hp' as <- <-. now split.
  - destruct (proj2 (parse_tokens buf) Hgt) as (b & Hp').
    rewrite Hp in Hp'. discriminate.
Qed.

(** When the parsing loop of [runcmd] reaches its [break], [argc] is below
    [MAXARGS], so that the store [argv[argc] = 0] stays inside the array;
    [argc] is the number of tokens of the line, and the pointers saved in
    [argv] are increasing offsets inside the buffer, each at a character
    of the line that is neither NUL nor whitespace. *)
Theorem argv_stays_in_bounds (buf b' : buffer) (argv : list nat) :
  parse buf = Some (Args b' argv) ->
  (List.length argv < MAXARGS)%nat
  /\ List.length argv = List.length (tokens (line_of buf))
  /\ Forall (fun p => (p < List.length buf)%nat /\ token_char (peek buf p) = true) argv
  /\ increasing argv.
Proof.
  intros Hp. destruct (parse_args_inv buf b' argv Hp) as [Hmap Hle].
  assert (Hlen : List.length argv = List.length (tokens (line_of buf)))
    by (rewrite <- Hmap; now rewrite length_map).
  destruct (parse_loop_shape (S (List.length buf)) buf [] [] b' argv
              (Nat.lt_succ_diag_r _) Hp) as (_ & ptrs & Hargv & Hptrs & Hinc).
  cbn [app] in Hargv. subst ptrs.
  split; [unfold MAXARGS; lia | split; [exact Hlen | split; [| exact Hinc]]].
  apply Forall_forall. intros p Hin. rewrite Forall_forall in Hptrs.
  destruct (Hptrs p Hin) as (_ & H2 & H3). cbn [List.length] in H2, H3.
  rewrite Nat.sub_0_r in H2, H3. now split.
Qed.

Lemma argv_stays_in_bounds_witness :
  parse (Examples.line " help  me") = Some (Args (zap (Examples.line " help  me")) [1; 7]%nat)
  /\ (List.length [1; 7]%nat < MAXARGS)%nat
  /\ List.length [1; 7]%nat = List.length (tokens (line_of (Examples.line " help  me")))
  /\ Forall (fun p => (p < List.length (Examples.line " help  me"))%nat
                      /\ token_char (peek (Examples.line " help  me") p) = true)
       [1; 7]%nat
  /\ increasing [1; 7]%nat.
Proof.
  assert (E : parse (Examples.line " help  me")
              = Some (Args (zap (Examples.line " help  me")) [1; 7]%nat)).
  { vm_compute. reflexivity. }
  split; [exact E |].
  exact (argv_stays_in_bounds _ _ _ E).
Defined.

Lemma zap_nth l : forall p,
  nth p (zap l) NUL
  = if (p <? String.length (cstring l))%nat
    then (if is_whitespace (nth p l NUL) then NUL else nth p l NUL)
    else nth p l NUL.
Proof.
  induction l as [|c r IH]; intros p; [now destruct p |].
  cbn [zap cstring]. destruct (nonzero c) eqn:Hc; [| reflexivity].
  destruct p as [|p]; [reflexivity |].
  cbn [nth String.length]. exact (IH p).
Qed.

(** After a line of at most 15 tokens has been parsed, the buffer is the
    one it was with every whitespace character of the line overwritten
    with NUL: its length, the other characters of the line and everything
    from the terminating NUL on are as before. *)
Theorem parse_zaps_whitespace (buf b' : buffer) (argv : list nat) :
  parse buf = Some (Args b' argv) ->
  b' = zap buf
  /\ List.length b' = List.length buf
  /\ forall p, peek b' p
               = if (p <? String.length (line_of buf))%nat
                 then (if is_whitespace (peek buf p) then NUL else peek buf p)
                 else peek buf p.
Proof.
  intros Hp.
  destruct (parse_loop_shape (S (List.length buf)) buf [] [] b' argv
              (Nat.lt_succ_diag_r _) Hp) as (Hb & _).
  cbn [app] in Hb. subst b'.
  split; [reflexivity | split; [apply zap_length |]].
  intros p. apply zap_nth.
Qed.

Lemma parse_zaps_whitespace_witness :
  parse (Examples.line " help  me") = Some (Args (zap (Examples.line " help  me")) [1; 7]%nat)
  /\ zap (Examples.line " help  me")
     = [NUL; "h"; "e"; "l"; "p"; NUL; NUL; "m"; "e"]%char
  /\ List.length (zap (Examples.line " help  me"))
     = List.length (Examples.line " help  me").
Proof.
  assert (E : parse (Examples.line " help  me")
              = Some (Args (zap (Examples.line " help  me")) [1; 7]%nat)).
  { vm_compute. reflexivity. }
  split; [exact E | split; [reflexivity |]].
  exact (proj1 (proj2 (parse_zaps_whitespace _ _ _ E))).
Defined.

Lemma fields_leading_token l :
  fields (cstring (firstn (tok_run l) l)) = (cstring (firstn (tok_run l) l), []).
Proof.
  induction l as [|c r IH]; [reflexivity |].
  cbn [tok_run]. destruct (nonzero c) eqn:Hc; cbn [andb]; [| reflexivity].
  destruct (is_whitespace c) eqn:Hw; cbn [negb]; [reflexivity |].
  cbn [firstn cstring]. rewrite Hc. cbn [fields]. now rewrite IH, Hw.
Qed.

Lemma cstring_zap l : cstring (zap l) = cstring (firstn (tok_run l) l).
Proof.
  rewrite zap_tok_run. apply cstring_app_stop.
  pose proof (tok_run_stop l) as Hstop.
  destruct (skipn (tok_run l) l) as [|c r]; [reflexivity |].
  cbn [hd] in Hstop. cbn [zap hd].
  destruct (nonzero c) eqn:Hc; cbn [hd].
  - cbn [andb] in Hstop. apply negb_false_iff in Hstop. now rewrite Hstop.
  - unfold nonzero in Hc. now destruct (Ascii.eqb_spec c NUL).
Qed.

(** Parsing is destructive: after a line of at most 15 tokens has been
    parsed, the buffer holds only the token that started the line, and
    the empty line when the line started with whitespace.  Parsing the
    buffer once more finds at most one token. *)
Theorem line_after_parse (buf b' : buffer) (argv : list nat) :
  parse buf = Some (Args b' argv) ->
  line_of b' = fst (fields (line_of buf))
  /\ tokens (line_of b') = push_token (fst (fields (line_of buf))) []
  /\ (is_whitespace (peek buf 0) = true -> line_of b' = "")
  /\ (List.length (tokens (line_of b')) <= 1)%nat.
Proof.
  intros Hp.
  destruct (parse_loop_shape (S (List.length buf)) buf [] [] b' argv
              (Nat.lt_succ_diag_r _) Hp) as (Hb & _).
  cbn [app] in Hb. subst b'.
  unfold line_of. rewrite cstring_zap, fields_cstring. cbn [fst].
  assert (HT : tokens (cstring (firstn (tok_run buf) buf))
               = push_token (cstring (firstn (tok_run buf) buf)) []).
  { unfold tokens at 1. now rewrite fields_leading_token. }
  split; [reflexivity | split; [exact HT | split]].
  - intros Hw. destruct buf as [|c r]; [reflexivity |].
    cbn [peek nth] in Hw. cbn [tok_run]. rewrite Hw. cbn [negb].
    now rewrite andb_false_r.
  - rewrite HT. destruct (cstring (firstn (tok_run buf) buf)); cbn; lia.
Qed.

Lemma line_after_parse_witness :
  parse (Examples.line " help  me") = Some (Args (zap (Examples.line " help  me")) [1; 7]%nat)
  /\ line_of (zap (Examples.line " help  me")) = ""
  /\ tokens (line_of (zap (Examples.line "help  me"))) = ["help"].
Proof.
  assert (E : parse (Examples.line " help  me")
              = Some (Args (zap (Examples.line " help  me")) [1; 7]%nat)).
  { vm_compute. reflexivity. }
  assert (E' : parse (Examples.line "help  me")
               = Some (Args (zap (Examples.line "help  me")) [0; 6]%nat)).
  { vm_compute. reflexivity. }
  split; [exact E | split].
  - exact (proj1 (proj2 (proj2 (line_after_parse _ _ _ E))) eq_refl).
  - exact (proj1 (proj2 (line_after_parse _ _ _ E'))).
Defined.

(** With the commands of the kernel, all a call of [runcmd] changes in the
    buffer, whatever the line and the path taken (overflow included), is
    that whitespace characters have been overwritten with NUL; the length
    of the buffer is as before. *)
Theorem runcmd_overwrites_whitespace_only (K : Kernel) (fuel : nat) (buf : buffer)
        (tf : Trapframe) (out : console) (o : outcome) :
  kernel_runcmd K fuel buf tf out = Some o ->
  Forall2 overwritten buf (cmdbuf o) /\ List.length (cmdbuf o) = List.length buf.
Proof.
  intros Hrun.
  assert (H : Forall2 overwritten buf (cmdbuf o)).
  { unfold kernel_runcmd, runcmd in Hrun.
    destruct (parse buf) as [res |] eqn:Hp; [| discriminate].
    destruct (parse_loop_overwrites (S (List.length buf)) buf [] [] res
                (Nat.lt_succ_diag_r _) Hp) as (suf' & Hb & Hov).
    cbn [app] in Hb.
    destruct res as [b' | b' argv]; subst suf'.
    - injection Hrun as <-. exact Hov.
    - destruct (Z.of_nat (List.length argv) =? 0); [injection Hrun as <-; exact Hov |].
      destruct (find_command _ commands) as [c |]; [| injection Hrun as <-; exact Hov].
      destruct (call_builtin K fuel (func c) _ _ tf out) as [[r out'] |];
        [injection Hrun as <-; exact Hov | discriminate]. }
  split; [exact H | symmetry; exact (Forall2_length H)].
Qed.

Lemma runcmd_overwrites_whitespace_only_witness :
  Forall2 overwritten (Examples.line "help\tme") (Examples.line "help" ++ NUL :: Examples.line "me")%list
  /\ List.length (Examples.line "help" ++ NUL :: Examples.line "me")%list
     = List.length (Examples.line "help\tme").
Proof.
  refine (runcmd_overwrites_whitespace_only Examples.K_resolved 0
            (Examples.line "help\tme") 0 ""
            {| retval := 0; cons := listing commands;
               cmdbuf := (Examples.line "help" ++ NUL :: Examples.line "me")%list |} _).
  vm_compute. reflexivity.
Defined.

Lemma fields_clean s :
  no_whitespace (fst (fields s)) = true
  /\ Forall (fun t => t <> "" /\ no_whitespace t = true) (snd (fields s)).
Proof.
  induction s as [|c r IH]; [now split |].
  cbn [fields]. destruct (fields r) as [w ws]. cbn [fst snd] in IH.
  destruct IH as [Hw Hws].
  destruct (is_whitespace c) eqn:Hc; cbn [fst snd].
  - split; [reflexivity |].
    destruct w as [|d w]; [exact Hws |].
    constructor; [split; [discriminate | exact Hw] | exact Hws].
  - split; [cbn [no_whitespace]; now rewrite Hc | exact Hws].
Qed.

Lemma tokens_clean s :
  Forall (fun t => t <> "" /\ no_whitespace t = true) (tokens s).
Proof.
  unfold tokens. destruct (fields_clean s) as [Hw Hws].
  destruct (fields s) as [w ws]. cbn [fst snd] in Hw, Hws.
  destruct w as [|d w]; [exact Hws |].
  constructor; [split; [discriminate | exact Hw] | exact Hws].
Qed.

(** The strings a handler is given in [argv], as the pointers read in the
    parsed buffer, are never empty and hold neither whitespace nor NUL;
    there are from 0 to 15 of them. *)
Theorem arguments_are_clean (buf b' : buffer) (argv : list nat) :
  parse buf = Some (Args b' argv) ->
  Forall (fun t => t <> "" /\ no_whitespace t = true /\ nul_free t = true)
    (map (str_at b') argv)
  /\ (List.length (map (str_at b') argv) <= 15)%nat.
Proof.
  intros Hp. destruct (parse_args_inv buf b' argv Hp) as [-> Hle].
  split; [| exact Hle].
  pose proof (tokens_clean (line_of buf)) as H1.
  pose proof (tokens_nul_free buf) as H2.
  rewrite Forall_forall in *. intros t Hin.
  destruct (H1 t Hin) as [Ha Hb]. split; [exact Ha | split; [exact Hb | now apply H2]].
Qed.

Lemma arguments_are_clean_witness :
  Forall (fun t => t <> "" /\ no_whitespace t = true /\ nul_free t = true)
    (map (str_at (zap (Examples.line " help  me"))) [1; 7]%nat)
  /\ (List.length (map (str_at (zap (Examples.line " help  me"))) [1; 7]%nat) <= 15)%nat.
Proof.
  refine (arguments_are_clean (Examples.line " help  me") _ _ _).
  vm_compute. reflexivity.
Defined.

(** ** More on the backtrace *)

Lemma mon_backtrace_loop_ends K fuel : forall fp out out',
  mon_backtrace_loop K fuel fp out = Some out' ->
  0 <= fp < 2 ^ 32 ->
  exists n, (n < fuel)%nat /\ link (mem K) n fp = 0.
Proof.
  induction fuel as [|fuel IH]; intros fp out out' H Hr; [discriminate |].
  cbn [mon_backtrace_loop] in H. rewrite to_int_zero in H by assumption.
  destruct (Z.eqb_spec fp 0) as [-> | Hnz]; cbn [negb] in H.
  - exists O. split; [lia | reflexivity].
  - destruct (IH _ _ _ H (load32_range _ _)) as (n & Hn & Hl).
    exists (S n). split; [lia | exact Hl].
Qed.

Lemma mon_backtrace_loop_reaches K n : forall fp out,
  0 <= fp < 2 ^ 32 -> link (mem K) n fp = 0 ->
  exists out', mon_backtrace_loop K (S n) fp out = Some out'.
Proof.
  induction n as [|n IH]; intros fp out Hr Hl.
  - cbn [link] in Hl. subst fp. now eexists.
  - cbn [mon_backtrace_loop]. rewrite to_int_zero by assumption.
    destruct (Z.eqb_spec fp 0) as [-> | Hnz]; cbn [negb]; [now eexists |].
    apply IH; [apply load32_range | exact Hl].
Qed.

(** [mon_backtrace] returns exactly when the saved links, followed from
    the current frame pointer, reach the zero sentinel; it then returns 0.
    On a stack whose links never reach zero (a cycle, say) it does not
    return, whatever the fuel: the loop has no other exit. *)
Theorem backtrace_ends_at_sentinel_only (K : Kernel) (argc : Z) (argv : list string)
        (tf : Trapframe) (out : console) :
  ((exists fuel r out', mon_backtrace K fuel argc argv tf out = Some (r, out'))
   <-> exists n, link (mem K) n (wrap32 (read_ebp K)) = 0)
  /\ ((forall n, link (mem K) n (wrap32 (read_ebp K)) <> 0) ->
      forall fuel, mon_backtrace K fuel argc argv tf out = None)
  /\ (forall n, link (mem K) n (wrap32 (read_ebp K)) = 0 ->
      exists out', mon_backtrace K (S n) argc argv tf out = Some (0, out')).
Proof.
  assert (Hfwd : forall fuel r out',
             mon_backtrace K fuel argc argv tf out = Some (r, out') ->
             exists n, link (mem K) n (wrap32 (read_ebp K)) = 0).
  { intros fuel r out' H. unfold mon_backtrace in H.
    destruct (mon_backtrace_loop K fuel (wrap32 (read_ebp K)) out) as [o |] eqn:E;
      [| discriminate].
    destruct (mon_backtrace_loop_ends K fuel _ _ _ E (wrap32_range _)) as (n & _ & Hn).
    now exists n. }
  assert (Hbwd : forall n, link (mem K) n (wrap32 (read_ebp K)) = 0 ->
             exists out', mon_backtrace K (S n) argc argv tf out = Some (0, out')).
  { intros n Hn.
    destruct (mon_backtrace_loop_reaches K n _ out (wrap32_range _) Hn) as [out' E].
    exists out'. unfold mon_backtrace. now rewrite E. }
  split; [split | split].
  - intros (fuel & r & out' & H). exact (Hfwd fuel r out' H).
  - intros (n & Hn). destruct (Hbwd n Hn) as [out' E]. now exists (S n), 0, out'.
  - intros Hnever fuel.
    destruct (mon_backtrace K fuel argc argv tf out) as [[r out'] |] eqn:E;
      [| reflexivity].
    destruct (Hfwd fuel r out' E) as [n Hn]. now destruct (Hnever n).
  - exact Hbwd.
Qed.

Lemma backtrace_ends_at_sentinel_only_witness :
  (forall n, link looping_stack n 4027645784 <> 0)
  /\ forall fuel,
       mon_backtrace (with_mem Examples.K_resolved looping_stack) fuel 1 ["backtrace"] 0 ""
       = None.
Proof.
  assert (H : forall n, link looping_stack n 4027645784 <> 0).
  { induction n as [|n IH]; [discriminate | exact IH]. }
  split; [exact H |].
  exact (proj1 (proj2 (backtrace_ends_at_sentinel_only
                         (with_mem Examples.K_resolved looping_stack)
                         1 ["backtrace"] 0 "")) H).
Defined.

Lemma frame_words_in fp i :
  In i [0; 1; 2; 3; 4; 5; 6] -> In (wrap32 (fp + 4 * i)) (frame_words fp).
Proof.
  intros H. unfold frame_words.
  exact (in_map (fun i => wrap32 (fp + 4 * i)) _ i H).
Qed.

Lemma load32_agree (m m' : memory) fp i :
  (forall a, In a (frame_words fp) -> m' a = m a) ->
  In i [0; 1; 2; 3; 4; 5; 6] ->
  load32 m' (fp + 4 * i) = load32 m (fp + 4 * i).
Proof.
  intros H Hi. unfold load32. f_equal. apply H. now apply frame_words_in.
Qed.

Lemma frame_text_agree K m' fp :
  (forall a, In a (frame_words fp) -> m' a = mem K a) ->
  frame_text (with_mem K m') fp = frame_text K fp.
Proof.
  intros H.
  assert (L : forall i, In i [0; 1; 2; 3; 4; 5; 6] ->
                        load32 m' (fp + 4 * i) = load32 (mem K) (fp + 4 * i))
    by (intros i Hi; now apply load32_agree).
  unfold frame_text, frame_at, raw_line.
  cbn [mem with_mem debuginfo_eip frame_pointer return_address argument_window
       map fold_right].
  replace (fp + 4) with (fp + 4 * 1) by lia.
  replace (fp + 8 + 4 * 0) with (fp + 4 * 2) by lia.
  replace (fp + 8 + 4 * 1) with (fp + 4 * 3) by lia.
  replace (fp + 8 + 4 * 2) with (fp + 4 * 4) by lia.
  replace (fp + 8 + 4 * 3) with (fp + 4 * 5) by lia.
  replace (fp + 8 + 4 * 4) with (fp + 4 * 6) by lia.
  rewrite !L by (cbn; tauto). reflexivity.
Qed.

(** The backtrace of a well-formed stack reads, in the monitor's own code,
    nothing but the seven words of each frame of the chain (saved link,
    return address, five argument words): with the same symbol resolver,
    in any memory that holds the same words there, it prints the same and
    returns the same. *)
Theorem backtrace_reads_frames_only (K : Kernel) (m' : memory) (fps : list Z)
        (fuel : nat) (argc : Z) (argv : list string) (tf : Trapframe) (out : console) :
  chain (mem K) (wrap32 (read_ebp K)) fps ->
  (forall fp a, In fp fps -> In a (frame_words fp) -> m' a = mem K a) ->
  mon_backtrace (with_mem K m') fuel argc argv tf out
  = mon_backtrace K fuel argc argv tf out.
Proof.
  intros Hc Hagree.
  assert (Hc' : forall fps fp, 0 <= fp < 2 ^ 32 ->
             (forall f a, In f fps -> In a (frame_words f) -> m' a = mem K a) ->
             chain (mem K) fp fps ->
             chain m' fp fps /\ frames_text (with_mem K m') fps = frames_text K fps).
  { clear. induction fps as [|f fps IH]; intros fp Hr Hag Hch; cbn [chain] in *.
    - now split.
    - destruct Hch as (-> & Hnz & Hch).
      assert (Hl : load32 m' fp = load32 (mem K) fp).
      { replace fp with (fp + 4 * 0) by lia.
        apply load32_agree; [| cbn; tauto].
        intros a Ha. apply (Hag fp a); [now left | exact Ha]. }
      destruct (IH (load32 (mem K) fp) (load32_range _ _)
                  (fun f a Hf Ha => Hag f a (or_intror Hf) Ha) Hch) as [H1 H2].
      split; [rewrite Hl; now repeat split |].
      cbn [frames_text]. rewrite H2. f_equal.
      apply frame_text_agree. intros a Ha. apply (Hag fp a); [now left | exact Ha]. }
  destruct (Hc' fps _ (wrap32_range (read_ebp K)) Hagree Hc) as [Hch Htext].
  unfold mon_backtrace.
  rewrite (mon_backtrace_loop_chain K fps _ out fuel (wrap32_range _) Hc).
  change (read_ebp (with_mem K m')) with (read_ebp K).
  rewrite (mon_backtrace_loop_chain (with_mem K m') fps _ out fuel (wrap32_range _) Hch).
  now rewrite Htext.
Qed.

Lemma backtrace_reads_frames_only_witness :
  mon_backtrace (with_mem Examples.K_resolved
                   (fun a => if a =? 0 then 12345 else Examples.stack2 a))
    3 1 ["backtrace"] 0 ""
  = mon_backtrace Examples.K_resolved 3 1 ["backtrace"] 0 "".
Proof.
  refine (backtrace_reads_frames_only Examples.K_resolved _
            [4027645784; 4027645816] 3 1 ["backtrace"] 0 "" _ _).
  - cbn [chain]. repeat split; try reflexivity; discriminate.
  - intros fp a [<- | [<- | []]] Ha; cbn in Ha;
      repeat (destruct Ha as [<- | Ha]; [reflexivity |]); destruct Ha.
Defined.

(** ** Lines of output *)

Lemma padding_no_newline c n : Ascii.eqb c LF = false -> count_lines (padding c n) = O.
Proof.
  intros H. induction n as [|n IH]; [reflexivity |]. cbn [padding count_lines].
  now rewrite H.
Qed.

Lemma printnum_fuel_no_newline f : forall num base w c,
  Ascii.eqb c LF = false -> count_lines (printnum_fuel f num base w c) = O.
Proof.
  induction f as [|f IH]; intros num base w c Hc; [reflexivity |].
  rewrite printnum_fuel_S, count_lines_app. cbn [count_lines].
  rewrite digit_not_newline.
  destruct (base <=? num); [rewrite IH by assumption | rewrite padding_no_newline by assumption];
    reflexivity.
Qed.

Lemma print_unsigned_no_newline z base w c :
  Ascii.eqb c LF = false -> count_lines (print_unsigned z base w c) = O.
Proof. intros H. unfold print_unsigned, printnum. now apply printnum_fuel_no_newline. Qed.

Lemma print_signed_no_newline z w c :
  Ascii.eqb c LF = false -> count_lines (print_signed z w c) = O.
Proof.
  intros H. unfold print_signed, printnum.
  destruct (to_int z <? 0); cbn [count_lines Ascii.eqb Bool.eqb LF];
    now apply printnum_fuel_no_newline.
Qed.

Lemma hex8_no_newline v : count_lines (hex8 v) = O.
Proof. apply hex_fixed_no_newline. Qed.

Lemma decimal_no_newline z : count_lines (decimal z) = O.
Proof. now apply print_signed_no_newline. Qed.

Lemma no_newline_count s : no_newline s = true -> count_lines s = O.
Proof.
  induction s as [|c r IH]; [reflexivity |]. cbn [no_newline count_lines].
  destruct (Ascii.eqb c LF); [discriminate | exact IH].
Qed.

Lemma mon_print_frame_text K base_ptr ret_ptr out :
  mon_print_frame K base_ptr ret_ptr out
  = out ++ "ebp " ++ hex8 base_ptr ++ " eip " ++ hex8 ret_ptr ++ " args "
        ++ hex8 (load32 (mem K) (base_ptr + 8)) ++ " "
        ++ hex8 (load32 (mem K) (base_ptr + 12)) ++ " "
        ++ hex8 (load32 (mem K) (base_ptr + 16)) ++ " "
        ++ hex8 (load32 (mem K) (base_ptr + 20)) ++ " "
        ++ hex8 (load32 (mem K) (base_ptr + 24)) ++ " " ++ String LF "".
Proof.
  unfold mon_print_frame. cbn [mon_print_frame_args].
  rewrite cprintf_frame_head, !cprintf_frame_arg, cprintf_newline.
  rewrite !ptr_add_ptr_add, !load32_ptr_add.
  cbn [Z.add Z.mul Pos.add Pos.mul Pos.succ].
  rewrite !sapp_assoc. reflexivity.
Qed.

(** The line [mon_print_frame] prints has the same layout for every frame
    pointer, return address and memory: 77 characters, the last of them
    the only newline, with the frame pointer at columns 4 to 11 and the
    return address at columns 17 to 24. *)
Theorem frame_line_layout (K : Kernel) (base_ptr ret_ptr : Z) (out : console) :
  exists text,
    mon_print_frame K base_ptr ret_ptr out = out ++ text
    /\ String.length text = 77%nat
    /\ count_lines text = 1%nat
    /\ String.get 76 text = Some LF
    /\ substring 4 8 text = hex8 base_ptr
    /\ substring 17 8 text = hex8 ret_ptr.
Proof.
  eexists. split; [apply mon_print_frame_text |].
  assert (Hsub : forall a b, String.length a = 8%nat -> substring 0 8 (a ++ b) = a).
  { intros a b Ha.
    do 9 (destruct a as [|? a]; try discriminate).
    cbn. now destruct b. }
  assert (Hskip : forall a b n, String.length a = 8%nat ->
                    substring (8 + n) 8 (a ++ b) = substring n 8 b).
  { intros a b n Ha.
    do 9 (destruct a as [|? a]; try discriminate). reflexivity. }
  split; [| split; [| split; [| split]]].
  - repeat (rewrite slength_app || rewrite hex8_length). reflexivity.
  - repeat (rewrite count_lines_app || rewrite hex8_no_newline). reflexivity.
  - assert (Hlast : forall u, String.get (String.length u) (u ++ String LF "") = Some LF).
    { induction u as [|c u IH]; [reflexivity | exact IH]. }
    rewrite <- !sapp_assoc.
    match goal with
    | |- String.get _ (?u ++ String LF "") = _ =>
        replace 76%nat with (String.length u);
        [apply Hlast | repeat (rewrite slength_app || rewrite hex8_length); reflexivity]
    end.
  - change (substring 4 8 ("ebp " ++ hex8 base_ptr ++ " eip " ++ hex8 ret_ptr ++ " args "
        ++ hex8 (load32 (mem K) (base_ptr + 8)) ++ " "
        ++ hex8 (load32 (mem K) (base_ptr + 12)) ++ " "
        ++ hex8 (load32 (mem K) (base_ptr + 16)) ++ " "
        ++ hex8 (load32 (mem K) (base_ptr + 20)) ++ " "
        ++ hex8 (load32 (mem K) (base_ptr + 24)) ++ " " ++ String LF ""))
      with (substring 0 8 (hex8 base_ptr ++ " eip " ++ hex8 ret_ptr ++ " args "
        ++ hex8 (load32 (mem K) (base_ptr + 8)) ++ " "
        ++ hex8 (load32 (mem K) (base_ptr + 12)) ++ " "
        ++ hex8 (load32 (mem K) (base_ptr + 16)) ++ " "
        ++ hex8 (load32 (mem K) (base_ptr + 20)) ++ " "
        ++ hex8 (load32 (mem K) (base_ptr + 24)) ++ " " ++ String LF "")).
    apply Hsub, hex8_length.
  - change (substring 17 8 ("ebp " ++ hex8 base_ptr ++ " eip " ++ hex8 ret_ptr ++ " args "
        ++ hex8 (load32 (mem K) (base_ptr + 8)) ++ " "
        ++ hex8 (load32 (mem K) (base_ptr + 12)) ++ " "
        ++ hex8 (load32 (mem K) (base_ptr + 16)) ++ " "
        ++ hex8 (load32 (mem K) (base_ptr + 20)) ++ " "
        ++ hex8 (load32 (mem K) (base_ptr + 24)) ++ " " ++ String LF ""))
      with (substring (8 + 5) 8 (hex8 base_ptr ++ " eip " ++ hex8 ret_ptr ++ " args "
        ++ hex8 (load32 (mem K) (base_ptr + 8)) ++ " "
        ++ hex8 (load32 (mem K) (base_ptr + 12)) ++ " "
        ++ hex8 (load32 (mem K) (base_ptr + 16)) ++ " "
        ++ hex8 (load32 (mem K) (base_ptr + 20)) ++ " "
        ++ hex8 (load32 (mem K) (base_ptr + 24)) ++ " " ++ String LF "")).
    rewrite Hskip by apply hex8_length.
    change (substring 5 8 (" eip " ++ hex8 ret_ptr ++ " args "
        ++ hex8 (load32 (mem K) (base_ptr + 8)) ++ " "
        ++ hex8 (load32 (mem K) (base_ptr + 12)) ++ " "
        ++ hex8 (load32 (mem K) (base_ptr + 16)) ++ " "
        ++ hex8 (load32 (mem K) (base_ptr + 20)) ++ " "
        ++ hex8 (load32 (mem K) (base_ptr + 24)) ++ " " ++ String LF ""))
      with (substring 0 8 (hex8 ret_ptr ++ " args "
        ++ hex8 (load32 (mem K) (base_ptr + 8)) ++ " "
        ++ hex8 (load32 (mem K) (base_ptr + 12)) ++ " "
        ++ hex8 (load32 (mem K) (base_ptr + 16)) ++ " "
        ++ hex8 (load32 (mem K) (base_ptr + 20)) ++ " "
        ++ hex8 (load32 (mem K) (base_ptr + 24)) ++ " " ++ String LF "")).
    apply Hsub, hex8_length.
Qed.

Lemma symbol_line_one_line file line fn off :
  no_newline file = true -> no_newline fn = true ->
  count_lines (symbol_line file line fn off) = 1%nat.
Proof.
  intros Hf Hn. unfold symbol_line.
  repeat rewrite count_lines_app.
  rewrite (no_newline_count file Hf), (no_newline_count fn Hn), !decimal_no_newline.
  reflexivity.
Qed.

Lemma frames_text_lines K fps :
  (forall a, no_newline (eip_file (snd (debuginfo_eip K a))) = true
             /\ no_newline (function_name (snd (debuginfo_eip K a))) = true) ->
  count_lines (frames_text K fps) = (2 * List.length fps)%nat.
Proof.
  intros Hres. induction fps as [|fp fps IH]; [reflexivity |].
  cbn [frames_text List.length]. rewrite count_lines_app, IH.
  unfold frame_text. rewrite count_lines_app, raw_line_one_line.
  destruct (Hres (return_address (frame_at (mem K) fp))) as [Hf Hn].
  rewrite (symbol_line_one_line _ _ _ _ Hf Hn). lia.
Qed.

(** When no file or function name of the resolver holds a newline, the
    backtrace of a well-formed stack of [N] frames prints exactly [2 N]
    lines: two for each frame. *)
Theorem backtrace_two_lines_per_frame (K : Kernel) (fps : list Z) (fuel : nat)
        (argc : Z) (argv : list string) (tf : Trapframe) (out : console) :
  chain (mem K) (wrap32 (read_ebp K)) fps ->
  (forall a, no_newline (eip_file (snd (debuginfo_eip K a))) = true
             /\ no_newline (function_name (snd (debuginfo_eip K a))) = true) ->
  (List.length fps < fuel)%nat ->
  exists out',
    mon_backtrace K fuel argc argv tf out = Some (0, out')
    /\ count_lines out' = (count_lines out + 2 * List.length fps)%nat.
Proof.
  intros Hc Hres Hfuel. exists (out ++ frames_text K fps). split.
  - unfold mon_backtrace.
    rewrite (mon_backtrace_loop_chain K fps _ out fuel (wrap32_range _) Hc).
    apply Nat.ltb_lt in Hfuel. now rewrite Hfuel.
  - rewrite count_lines_app, (frames_text_lines K fps Hres). reflexivity.
Qed.

Lemma backtrace_two_lines_per_frame_witness :
  exists out',
    mon_backtrace Examples.K_resolved 3 1 ["backtrace"] 0 (lit "K> backtrace\n")
    = Some (0, out')
    /\ count_lines out'
       = (count_lines (lit "K> backtrace\n") + 2 * 2)%nat.
Proof.
  refine (backtrace_two_lines_per_frame Examples.K_resolved [4027645784; 4027645816]
            3 1 ["backtrace"] 0 (lit "K> backtrace\n") _ _ _).
  - cbn [chain]. repeat split; try reflexivity; discriminate.
  - intros a. split; reflexivity.
  - apply Nat.ltb_lt. reflexivity.
Defined.

(** ** [kerninfo] *)

Lemma cprintf_append fmt ap out : cprintf fmt ap out = out ++ cprintf fmt ap "".
Proof. reflexivity. Qed.

(** Evaluate the C literals of the goal. *)
Ltac eval_lit :=
  repeat match goal with
         | |- context [lit ?s] =>
             let x := eval vm_compute in (lit s) in change (lit s) with x
         end.

Lemma mon_kerninfo_text K argc argv tf out :
  mon_kerninfo K argc argv tf out = (0, out ++ kerninfo_text K).
Proof.
  assert (H0 : forall o, cprintf (lit "Special kernel symbols:\n") [] o
                         = o ++ lit "Special kernel symbols:\n").
  { intros o. eval_lit. reflexivity. }
  assert (H1 : forall v o, cprintf (lit "  _start                  %08x (phys)\n")
                             [VInt v] o
                           = o ++ "  _start                  " ++ hex8 v ++ lit " (phys)\n").
  { intros v o. rewrite <- print_unsigned_hex8. eval_lit. reflexivity. }
  assert (H2 : forall v w o, cprintf (lit "  entry  %08x (virt)  %08x (phys)\n")
                               [VInt v; VInt w] o
                             = o ++ "  entry  " ++ hex8 v ++ " (virt)  " ++ hex8 w
                                 ++ lit " (phys)\n").
  { intros v w o. rewrite <- !print_unsigned_hex8. eval_lit. reflexivity. }
  assert (H3 : forall v w o, cprintf (lit "  etext  %08x (virt)  %08x (phys)\n")
                               [VInt v; VInt w] o
                             = o ++ "  etext  " ++ hex8 v ++ " (virt)  " ++ hex8 w
                                 ++ lit " (phys)\n").
  { intros v w o. rewrite <- !print_unsigned_hex8. eval_lit. reflexivity. }
  assert (H4 : forall v w o, cprintf (lit "  edata  %08x (virt)  %08x (phys)\n")
                               [VInt v; VInt w] o
                             = o ++ "  edata  " ++ hex8 v ++ " (virt)  " ++ hex8 w
                                 ++ lit " (phys)\n").
  { intros v w o. rewrite <- !print_unsigned_hex8. eval_lit. reflexivity. }
  assert (H5 : forall v w o, cprintf (lit "  end    %08x (virt)  %08x (phys)\n")
                               [VInt v; VInt w] o
                             = o ++ "  end    " ++ hex8 v ++ " (virt)  " ++ hex8 w
                                 ++ lit " (phys)\n").
  { intros v w o. rewrite <- !print_unsigned_hex8. eval_lit. reflexivity. }
  assert (H6 : forall v o, cprintf (lit "Kernel executable memory footprint: %dKB\n")
                             [VInt v] o
                           = o ++ "Kernel executable memory footprint: " ++ decimal v
                               ++ lit "KB\n").
  { intros v o. unfold decimal. eval_lit. reflexivity. }
  unfold mon_kerninfo, kerninfo_text. cbv zeta.
  rewrite H6.
  rewrite H5.
  rewrite H4.
  rewrite H3.
  rewrite H2.
  rewrite H1.
  rewrite H0.
  rewrite !sapp_assoc.
  reflexivity.
Qed.

(** [kerninfo] returns 0 and prints seven lines, whatever the addresses
    of the kernel's symbols: a heading, the five symbols (each address as
    eight hexadecimal digits, the physical one being the address less
    [KERNBASE] in 32 bits) and the footprint in KB. *)
Theorem kerninfo_prints_seven_lines (K : Kernel) (argc : Z) (argv : list string)
        (tf : Trapframe) (out : console) :
  mon_kerninfo K argc argv tf out = (0, out ++ kerninfo_text K)
  /\ count_lines (kerninfo_text K) = 7%nat
  /\ hex8 (sym_entry K - KERNBASE K) = hex8 (wrap32 (sym_entry K) - wrap32 (KERNBASE K)).
Proof.
  split; [apply mon_kerninfo_text | split].
  - unfold kerninfo_text.
    repeat (rewrite count_lines_app || rewrite hex8_no_newline
            || rewrite decimal_no_newline).
    reflexivity.
  - unfold hex8. f_equal. unfold wrap32. now rewrite <- Zminus_mod.
Qed.

(** ** The console *)

Lemma mon_backtrace_loop_appends K fuel : forall fp out,
  mon_backtrace_loop K fuel fp out
  = option_map (append out) (mon_backtrace_loop K fuel fp "").
Proof.
  induction fuel as [|fuel IH]; intros fp out; [reflexivity |].
  cbn [mon_backtrace_loop].
  destruct (negb (to_int fp =? 0)); [| cbn [option_map]; now rewrite sapp_nil_r].
  rewrite (IH _ (mon_print_frame_descr K fp out)).
  rewrite (IH _ (mon_print_frame_descr K fp "")).
  rewrite (mon_print_frame_descr_text K fp out), (mon_print_frame_descr_text K fp "").
  destruct (mon_backtrace_loop K fuel (load32 (mem K) fp) "") as [t |]; [| reflexivity].
  cbn [option_map append]. now rewrite sapp_assoc.
Qed.

Lemma call_builtin_appends K fuel f argc argv tf out :
  call_builtin K fuel f argc argv tf out
  = option_map (fun rt => (fst rt, out ++ snd rt)) (call_builtin K fuel f argc argv tf "").
Proof.
  destruct f; cbn [call_builtin option_map].
  - unfold mon_help. now rewrite (mon_help_loop_listing commands out),
                                 (mon_help_loop_listing commands "").
  - now rewrite (mon_kerninfo_text K argc argv tf out), (mon_kerninfo_text K argc argv tf "").
  - unfold mon_backtrace. rewrite (mon_backtrace_loop_appends K fuel _ out).
    now destruct (mon_backtrace_loop K fuel (wrap32 (read_ebp K)) "").
Qed.

Lemma kernel_runcmd_appends K fuel buf tf out :
  kernel_runcmd K fuel buf tf out
  = option_map (after out) (kernel_runcmd K fuel buf tf "").
Proof.
  unfold kernel_runcmd, runcmd, after.
  destruct (parse buf) as [[b | b argv] |]; [| | reflexivity].
  - cbn [option_map retval cons cmdbuf]. now rewrite (cprintf_append _ _ out).
  - destruct (Z.of_nat (List.length argv) =? 0);
      [cbn [option_map retval cons cmdbuf]; now rewrite sapp_nil_r |].
    destruct (find_command _ commands) as [c |];
      [| cbn [option_map retval cons cmdbuf]; now rewrite (cprintf_append _ _ out)].
    rewrite (call_builtin_appends K fuel (func c) _ _ tf out).
    now destruct (call_builtin K fuel (func c) _ _ tf "") as [[r t] |].
Qed.

(** With the commands of the kernel, [runcmd] only adds to the console:
    what was printed before stays in front, unchanged, and what is printed
    after it, the return value and the buffer do not depend on it. *)
Theorem runcmd_appends_to_console (K : Kernel) (fuel : nat) (buf : buffer)
        (tf : Trapframe) (out : console) :
  kernel_runcmd K fuel buf tf out
  = option_map (after out) (kernel_runcmd K fuel buf tf "")
  /\ forall o, kernel_runcmd K fuel buf tf out = Some o ->
               exists text, cons o = out ++ text.
Proof.
  split; [apply kernel_runcmd_appends |].
  intros o H. rewrite kernel_runcmd_appends in H.
  destruct (kernel_runcmd K fuel buf tf "") as [o' |]; [| discriminate].
  injection H as <-. now exists (cons o').
Qed.

(** ** The loop of [monitor] *)

Section Loop.
Variable Func : Type.
Variable call : Func -> Z -> list string -> Trapframe -> console -> option (Z * console).
Variable cmds : list (Command Func).

Lemma monitor_loop_app l1 : forall l2 tf out,
  monitor_loop call cmds (l1 ++ l2)%list tf out
  = match monitor_loop call cmds l1 tf out with
    | Some (Reading out') => monitor_loop call cmds l2 tf out'
    | r => r
    end.
Proof.
  induction l1 as [|line l1 IH]; intros l2 tf out; [reflexivity |].
  cbn [app monitor_loop].
  destruct (monitor_turn call cmds line tf out) as [[o | o] |]; [apply IH | |];
    reflexivity.
Qed.

Lemma monitor_loop_returned lines : forall tf out,
  monitor_loop call cmds lines tf out
  = monitor_loop call cmds (returned_lines lines) tf out.
Proof.
  induction lines as [|[b |] lines IH]; intros tf out; [reflexivity | |].
  - cbn [returned_lines monitor_loop].
    destruct (monitor_turn call cmds (Some b) tf out) as [[o | o] |]; [apply IH | |];
      reflexivity.
  - cbn [returned_lines monitor_loop monitor_turn]. apply IH.
Qed.

End Loop.

(** The loop of [monitor] handles the lines one after the other: reading
    [l1] and then [l2] is reading [l1] and, if the loop is still reading,
    [l2] from the console [l1] left.  Once a handler has made the loop end,
    or has not returned, no later line is read. *)
Theorem monitor_reads_lines_in_turn (Func : Type)
        (call : Func -> Z -> list string -> Trapframe -> console -> option (Z * console))
        (cmds : list (Command Func)) (l1 l2 : list (option buffer))
        (tf : Trapframe) (out : console) :
  monitor_loop call cmds (l1 ++ l2)%list tf out
  = match monitor_loop call cmds l1 tf out with
    | Some (Reading out') => monitor_loop call cmds l2 tf out'
    | r => r
    end
  /\ (forall out', monitor_loop call cmds l1 tf out = Some (Terminal out') ->
                   monitor_loop call cmds (l1 ++ l2)%list tf out = Some (Terminal out'))
  /\ (monitor_loop call cmds l1 tf out = None ->
      monitor_loop call cmds (l1 ++ l2)%list tf out = None).
Proof.
  pose proof (monitor_loop_app Func call cmds l1 l2 tf out) as H.
  split; [exact H | split].
  - intros out' E. now rewrite H, E.
  - intros E. now rewrite H, E.
Qed.

Lemma monitor_reads_lines_in_turn_witness :
  monitor_loop Examples.call_const Examples.exit_commands
    ([Some (Examples.line "nop"); Some (Examples.line "exit")]
     ++ [Some (Examples.line "bogus")])%list 0 "K> "
  = Some (Terminal "K> ").
Proof.
  refine (proj1 (proj2 (monitor_reads_lines_in_turn Z Examples.call_const
                          Examples.exit_commands
                          [Some (Examples.line "nop"); Some (Examples.line "exit")]
                          [Some (Examples.line "bogus")] 0 "K> ")) "K> " _).
  reflexivity.
Defined.

(** A [NULL] from [readline] neither ends the loop of [monitor] nor prints
    anything: the loop does what it does on the lines that were returned. *)
Theorem null_lines_are_skipped (Func : Type)
        (call : Func -> Z -> list string -> Trapframe -> console -> option (Z * console))
        (cmds : list (Command Func)) (lines : list (option buffer))
        (tf : Trapframe) (out : console) :
  monitor_loop call cmds lines tf out
  = monitor_loop call cmds (returned_lines lines) tf out
  /\ monitor call cmds lines tf out = monitor call cmds (returned_lines lines) tf out
  /\ monitor_loop call cmds (repeat None (List.length lines)) tf out = Some (Reading out).
Proof.
  split; [apply monitor_loop_returned | split].
  - unfold monitor. apply monitor_loop_returned.
  - induction lines as [|l lines IH]; [reflexivity | exact IH].
Qed.

Lemma kernel_loop_grows K fuel lines : forall tf out st,
  monitor_loop (call_builtin K fuel) commands lines tf out = Some st ->
  exists text, st = Reading (out ++ text).
Proof.
  induction lines as [|line lines IH]; intros tf out st H.
  - injection H as <-. exists "". now rewrite sapp_nil_r.
  - cbn [monitor_loop] in H.
    destruct (monitor_turn (call_builtin K fuel) commands line tf out) as [[o | o] |]
      eqn:Hturn; [| exfalso; exact (kernel_turn_reads K fuel line tf out o Hturn)
                 | discriminate].
    assert (Ho : exists t, o = out ++ t).
    { unfold monitor_turn in Hturn. destruct line as [buf |].
      - change (runcmd (call_builtin K fuel) commands buf tf out)
          with (kernel_runcmd K fuel buf tf out) in Hturn.
        rewrite kernel_runcmd_appends in Hturn.
        destruct (kernel_runcmd K fuel buf tf "") as [o' |]; [| discriminate].
        cbn [option_map after retval cons] in Hturn.
        destruct (retval o' <? 0); [discriminate |].
        injection Hturn as <-. now exists (cons o').
      - injection Hturn as <-. exists "". now rewrite sapp_nil_r. }
    destruct Ho as [t ->].
    destruct (IH tf _ st H) as [text ->].
    exists (t ++ text). now rewrite sapp_assoc.
Qed.

(** The monitor of the kernel first prints its two lines of greeting and
    then only adds to the console; whenever it has handled the lines it
    was given, it is waiting for the next one. *)
Theorem monitor_greets_and_keeps_reading (K : Kernel) (fuel : nat)
        (lines : list (option buffer)) (tf : Trapframe) (out : console) (st : repl) :
  kernel_monitor K fuel lines tf out = Some st ->
  exists text, st = Reading (out ++ banner ++ text)
               /\ count_lines banner = 2%nat.
Proof.
  unfold kernel_monitor, monitor. intros H.
  destruct (kernel_loop_grows K fuel lines tf _ st H) as [text ->].
  exists text. split; [| reflexivity]. f_equal.
  assert (E : forall o,
             cprintf (lit "Type 'help' for a list of commands.\n") []
               (cprintf (lit "Welcome to the JOS kernel monitor!\n") [] o)
             = o ++ banner).
  { intros o. unfold banner. eval_lit. unfold cprintf.
    rewrite sapp_assoc. reflexivity. }
  now rewrite E, sapp_assoc.
Qed.

Lemma monitor_greets_and_keeps_reading_witness :
  exists text,
    Reading (banner ++ listing commands) = Reading ("" ++ banner ++ text)
    /\ count_lines banner = 2%nat.
Proof.
  refine (monitor_greets_and_keeps_reading Examples.K_resolved 0
            [None; Some (Examples.line "help")] 0 "" _ _).
  vm_compute. reflexivity.
Defined.
